(** * tgBot: key redemption, upload sessions and the file ledger

    A shallow embedding of the bot's data-access layer
    ([src/db/database.py]) and of its handlers and router
    ([src/handlers/user_handlers.py], [src/keyboards.py]).

    - The four tables are fields of [database]; a pool call is a function
      on that state.
    - The FSM storage, the [temp/] directory and the messages handed to the
      chat transport are the other fields of [world].
    - Handlers run in a state-and-exception monad [M] over [world]; what the
      collaborators decide during one event (the clock, whether a download
      or a statement fails) is read from an [env].
    - Python [str] values are [string]s of bytes; [lower] acts on ASCII
      letters, which is all the extension allow-list can observe. *)

From Stdlib Require Import Ascii.
From stdpp Require Import gmap strings list sorting pretty.

Local Open Scope string_scope.
Local Open Scope Z_scope.

(** ** Strings, as the handlers use them *)

Module Str.

Definition LF : string := String "010"%char EmptyString.

(** [sep.join(l)] *)
Fixpoint join (sep : string) (l : list string) : string :=
  match l with
  | [] => ""
  | [x] => x
  | x :: xs => x +:+ sep +:+ join sep xs
  end.

(** [needle in hay] *)
Fixpoint contains (needle hay : string) : bool :=
  String.prefix needle hay ||
  match hay with
  | EmptyString => false
  | String _ hay' => contains needle hay'
  end.

Definition lower_ascii (c : ascii) : ascii :=
  let n := nat_of_ascii c in
  if ((65 <=? n) && (n <=? 90))%nat then ascii_of_nat (n + 32) else c.

(** [s.lower()] *)
Fixpoint lower (s : string) : string :=
  match s with
  | EmptyString => EmptyString
  | String c s' => String (lower_ascii c) (lower s')
  end.

(** [s[i:]] *)
Fixpoint drop (i : nat) (s : string) : string :=
  match i, s with
  | O, _ => s
  | S i', String _ s' => drop i' s'
  | S _, EmptyString => EmptyString
  end.


(** [s.rfind('.')], with [None] for Python's -1. *)
Fixpoint rfind_dot (s : string) : option nat :=
  match s with
  | EmptyString => None
  | String c s' =>
      match rfind_dot s' with
      | Some i => Some (S i)
      | None => if Ascii.eqb c "." then Some O else None
      end
  end.

(** [s.split('/')]: never empty. *)
Fixpoint split_slash (s : string) : list string :=
  match s with
  | EmptyString => [EmptyString]
  | String c s' =>
      match split_slash s' with
      | [] => [EmptyString]
      | w :: ws =>
          if Ascii.eqb c "/" then EmptyString :: w :: ws
          else String c w :: ws
      end
  end.


(** [str(x) if x is not None], and ["None"] otherwise: how an f-string
    renders an optional value. *)
Definition of_opt (o : option string) : string := default "None" o.

(** Python truthiness of a string. *)
Definition truthy (s : string) : bool := negb (String.eqb s "").

End Str.

(** ** [pathlib.Path(name).suffix] on a POSIX host *)

Module Path.

(** The parts of a relative or absolute path: empty and ["."] components
    are dropped when the path is parsed. *)
Definition parts (s : string) : list string :=
  filter (λ p, p ≠ "" ∧ p ≠ ".") (Str.split_slash s).

(** [Path(s).name]: the final component, [""] when there is none. *)
Definition name (s : string) : string := List.last (parts s) "".

(** [PurePath.suffix]:
    [i = name.rfind('.'); name[i:] if 0 < i < len(name) - 1 else ''].
    Over the integers [0 < i < len - 1] is [0 < i] and [i + 1 < len]. *)
Definition suffix_of_name (n : string) : string :=
  match Str.rfind_dot n with
  | Some i =>
      if ((0 <? i) && (i + 1 <? String.length n))%nat then Str.drop i n
      else ""
  | None => ""
  end.

Definition suffix (s : string) : string := suffix_of_name (name s).

(** [str(Path(a) / b / c)] for components that are plain names. *)
Definition joinpath (components : list string) : string :=
  Str.join "/" components.

End Path.

(** ** Telegram objects the handlers read *)

Record User := { user_id : Z; username : option string }.

Record Document := {
  doc_file_id : string;
  doc_file_unique_id : string;
  file_name : option string;
}.

Record PhotoSize := { photo_file_id : string; photo_file_unique_id : string }.

(** What the transport's [Command] filter parsed out of the text or
    caption, when it is a command. *)
Record CommandObject := { command : string; args : option string }.

Record Message := {
  from_user : User;
  chat_id : Z;
  message_id : Z;
  text : option string;
  msg_command : option CommandObject;
  document : option Document;
  photo : list PhotoSize;
}.

(** [keyboards.py]: the payloads of the two inline keyboards; callback data
    with another prefix passes neither filter. *)
Inductive callback_data :=
| FileTypeCallbackData (type : string)
| DeleteFileCallbackData (file_id : Z)
| OtherCallbackData.

(** The message an inline button hangs on ([query.message]). *)
Record CallbackMessage := {
  cb_chat_id : Z;
  cb_message_id : Z;
  cb_text : option string;
}.

Record CallbackQuery := {
  cq_from_user : User;
  cq_message : option CallbackMessage;
  cq_data : callback_data;
}.

Inductive event :=
| EvMessage (m : Message)
| EvCallback (q : CallbackQuery).

(** [keyboards.py] *)
Inductive keyboard :=
| main_menu_authorized
| main_menu_unauthorized
| file_type_keyboard
| create_delete_button (file_id : Z).

(** What a handler hands to the chat transport. [reply_to] is set by
    [message.reply] and absent for [message.answer] and
    [bot.send_message]. *)
Inductive effect :=
| send_message (chat : Z) (reply_to : option Z) (body : string)
    (reply_markup : option keyboard)
| answer_callback (body : option string) (show_alert : bool)
| edit_text (chat : Z) (msg : Z) (body : string)
| delete_message (chat : Z) (msg : Z).

(** ** The persisted schema ([create_tables]) *)

(** [users], keyed by [user_id] (UNIQUE NOT NULL). *)
Record user_row := {
  u_username : option string;
  u_registered_at : Z;
  u_is_authorized : bool;
}.

(** [auth_keys], keyed by [auth_key] (UNIQUE NOT NULL). *)
Record key_row := { k_is_used : bool; k_created_at : Z }.

(** [storage]: [id] is SERIAL, [user_id] references [users]. *)
Record file_row := {
  f_id : Z;
  f_user_id : Z;
  f_file_path : string;
  f_original_filename : string;
  f_file_type : string;
  f_uploaded_at : Z;
}.

(** [logs]: [user_id] is nullable and references [users]. *)
Record log_row := {
  l_user_id : option Z;
  l_action_description : string;
  l_timestamp : Z;
}.

Record database := {
  users : gmap Z user_row;
  auth_keys : gmap string key_row;
  storage : list file_row;
  storage_id_seq : Z;
  logs : list log_row;
}.

(** [states.FileUpload]; a user without an entry in the FSM storage is in
    state [None]. *)
Inductive FileUpload := choosing_file_type | awaiting_document | awaiting_photo.

Record world := {
  db : database;
  fsm : gmap Z FileUpload;
  disk : gset string;
  outbox : list effect;
}.

(** What the collaborators decide while one event is handled. *)
Record env := {
  env_now : Z;                  (* NOW() *)
  env_timestamp : string;       (* datetime.now().strftime("%Y%m%d_%H%M%S") *)
  env_mkdir_fails : bool;       (* user_temp_dir.mkdir raises OSError *)
  env_download_fails : bool;    (* bot.download raises *)
  env_unlink_fails : bool;      (* file_path.unlink raises OSError *)
  env_insert_fails : bool;      (* the storage INSERT raises, no constraint involved *)
  env_tx_fault : option nat;    (* the statement of the redeem transaction that raises *)
}.

#[global] Instance FileUpload_eq_dec : EqDecision FileUpload.
Proof. solve_decision. Defined.

#[global] Instance keyboard_eq_dec : EqDecision keyboard.
Proof. solve_decision. Defined.

#[global] Instance effect_eq_dec : EqDecision effect.
Proof. solve_decision. Defined.

(** ** Exceptions and the handler monad *)

Inductive exn :=
| AttributeError
| IndexError
| UniqueViolationError
| IntegrityConstraintViolationError
| PostgresError.

Inductive result (A : Type) :=
| Ok (a : A)
| Raise (e : exn).

Arguments Ok {A} a.
Arguments Raise {A} e.

Definition M (A : Type) : Type := world → result A * world.

#[global] Instance M_ret : MRet M := λ A a w, (Ok a, w).

#[global] Instance M_bind : MBind M := λ A B f m w,
  match m w with
  | (Ok a, w') => f a w'
  | (Raise e, w') => (Raise e, w')
  end.

Definition raise {A} (e : exn) : M A := λ w, (Raise e, w).

(** [try: body / except Exception as e: handler(e)] *)
Definition try_except {A} (body : M A) (handler : exn → M A) : M A := λ w,
  match body w with
  | (Ok a, w') => (Ok a, w')
  | (Raise e, w') => handler e w'
  end.

(** [if c: body] *)
Definition when (c : bool) (body : M unit) : M unit :=
  if c then body else mret ().

Definition get_db : M database := λ w, (Ok (db w), w).

Definition put_db (d : database) : M unit := λ w,
  (Ok (), {| db := d; fsm := fsm w; disk := disk w; outbox := outbox w |}).

Definition modify_db (f : database → database) : M unit :=
  d ← get_db; put_db (f d).

(** The transport accepts every message it is handed. *)
Definition emit (x : effect) : M unit := λ w,
  (Ok (), {| db := db w; fsm := fsm w; disk := disk w;
             outbox := outbox w ++ [x] |}).

(** What is left of the world after an event, whether the handler returned
    or raised (the dispatcher logs an exception that escapes). *)
Definition exec {A} (m : M A) (w : world) : world := (m w).2.

(** ** [src/db/database.py] *)

Definition with_users (f : gmap Z user_row → gmap Z user_row) (d : database)
  : database :=
  {| users := f (users d); auth_keys := auth_keys d; storage := storage d;
     storage_id_seq := storage_id_seq d; logs := logs d |}.

Definition with_auth_keys (f : gmap string key_row → gmap string key_row)
  (d : database) : database :=
  {| users := users d; auth_keys := f (auth_keys d); storage := storage d;
     storage_id_seq := storage_id_seq d; logs := logs d |}.

Definition with_storage (f : list file_row → list file_row) (d : database)
  : database :=
  {| users := users d; auth_keys := auth_keys d; storage := f (storage d);
     storage_id_seq := storage_id_seq d; logs := logs d |}.

Definition with_storage_id_seq (n : Z) (d : database) : database :=
  {| users := users d; auth_keys := auth_keys d; storage := storage d;
     storage_id_seq := n; logs := logs d |}.

Definition with_logs (f : list log_row → list log_row) (d : database)
  : database :=
  {| users := users d; auth_keys := auth_keys d; storage := storage d;
     storage_id_seq := storage_id_seq d; logs := f (logs d) |}.

Definition set_is_authorized (b : bool) (r : user_row) : user_row :=
  {| u_username := u_username r; u_registered_at := u_registered_at r;
     u_is_authorized := b |}.

Definition set_is_used (r : key_row) : key_row :=
  {| k_is_used := true; k_created_at := k_created_at r |}.

(** [SELECT ... FROM users WHERE user_id = $1] *)
Definition get_user (uid : Z) : M (option user_row) :=
  d ← get_db; mret (users d !! uid).

(** [INSERT INTO users ... VALUES($1, $2, NOW(), FALSE) RETURNING ...] *)
Definition add_user (e : env) (uid : Z) (uname : option string) : M user_row :=
  d ← get_db;
  match users d !! uid with
  | Some _ => raise UniqueViolationError
  | None =>
      let r := {| u_username := uname; u_registered_at := env_now e;
                  u_is_authorized := false |} in
      put_db (with_users (insert uid r) d);; mret r
  end.

(** [SELECT id, is_used FROM auth_keys WHERE auth_key = $1 FOR UPDATE] *)
Definition check_auth_key (auth_key : string) : M (option key_row) :=
  d ← get_db; mret (auth_keys d !! auth_key).

(** [UPDATE auth_keys SET is_used = TRUE WHERE auth_key = $1] *)
Definition mark_key_used (auth_key : string) : M unit :=
  modify_db (with_auth_keys (alter set_is_used auth_key)).

(** [UPDATE users SET is_authorized = TRUE WHERE user_id = $1] *)
Definition set_user_authorized_in_transaction (uid : Z) : M unit :=
  modify_db (with_users (alter (set_is_authorized true) uid)).

(** [UPDATE users SET is_authorized = $1 WHERE user_id = $2]; the status
    string only selects the line written to the logger. *)
Definition set_user_authorization_status (uid : Z) (is_authorized : bool)
  : M unit :=
  modify_db (with_users (alter (set_is_authorized is_authorized) uid)).

(** [async with connection.transaction():] the tables are restored when the
    block raises or the commit fails; a [return] inside the block commits. *)
Definition rollback (before after : world) : world :=
  {| db := db before; fsm := fsm after; disk := disk after;
     outbox := outbox after |}.

Definition transaction {A} (commit_fails : bool) (body : M A) : M A := λ w,
  match body w with
  | (Ok a, w') =>
      if commit_fails then (Raise PostgresError, rollback w w')
      else (Ok a, w')
  | (Raise x, w') => (Raise x, rollback w w')
  end.

(** The [n]-th statement sent on the connection of the redeem transaction:
    it raises when the environment says so. *)
Definition statement (e : env) (n : nat) : M unit :=
  if bool_decide (env_tx_fault e = Some n) then raise PostgresError
  else mret ().

Definition INVALID_KEY : string := "Недійсний ключ авторизації.".
Definition KEY_ALREADY_USED : string :=
  "Цей ключ авторизації вже було використано.".
Definition AUTH_SUCCESS : string := "Авторизація успішна.".

Definition authorize_user_with_key (e : env) (uid : Z) (auth_key : string)
  : M (bool * string) :=
  transaction (bool_decide (env_tx_fault e = Some 3%nat))
    (statement e 0;;
     key_record ← check_auth_key auth_key;
     match key_record with
     | None => mret (false, INVALID_KEY)
     | Some k =>
         if k_is_used k then mret (false, KEY_ALREADY_USED)
         else
           statement e 1;;
           mark_key_used auth_key;;
           statement e 2;;
           set_user_authorized_in_transaction uid;;
           mret (true, AUTH_SUCCESS)
     end).

(** [except asyncpg.IntegrityConstraintViolationError] also catches its
    subclasses. *)
Definition is_integrity_violation (x : exn) : bool :=
  match x with
  | IntegrityConstraintViolationError | UniqueViolationError => true
  | _ => false
  end.

(** [CHECK (file_type IN ('photo', 'document'))] *)
Definition file_type_check (file_type : string) : bool :=
  String.eqb file_type "photo" || String.eqb file_type "document".

(** [INSERT INTO storage (user_id, file_path, original_filename, file_type)
    VALUES ($1, $2, $3, $4) RETURNING id]: the id is drawn from the
    sequence before the constraints are checked. *)
Definition insert_storage (e : env) (uid : Z)
  (file_path original_filename file_type : string) : M Z :=
  if env_insert_fails e then raise PostgresError
  else
    d ← get_db;
    let file_id := storage_id_seq d + 1 in
    let d1 := with_storage_id_seq file_id d in
    put_db d1;;
    if file_type_check file_type && bool_decide (is_Some (users d !! uid))
    then
      put_db (with_storage (λ s, (s ++ [{| f_id := file_id; f_user_id := uid;
                f_file_path := file_path;
                f_original_filename := original_filename;
                f_file_type := file_type;
                f_uploaded_at := env_now e |}])%list) d1);;
      mret file_id
    else raise IntegrityConstraintViolationError.

Definition add_file_record (e : env) (uid : Z)
  (file_path original_filename file_type : string) : M unit :=
  try_except
    (insert_storage e uid file_path original_filename file_type;; mret ())
    (λ x, if is_integrity_violation x then mret ()   (* logger.error(...) *)
          else raise x).                             (* logger.exception(...); raise *)

(** A row of [get_user_files]: the storage columns and [u.username]. *)
Record file_listing := { fl_file : file_row; fl_username : option string }.

(** [ORDER BY s.uploaded_at DESC] *)
Definition newer_first (x y : file_listing) : Prop :=
  f_uploaded_at (fl_file y) ≤ f_uploaded_at (fl_file x).

#[global] Instance newer_first_dec : RelDecision newer_first.
Proof. intros x y. unfold newer_first. apply _. Defined.

(** [FROM storage s JOIN users u ON s.user_id = u.user_id WHERE s.user_id = $1] *)
Definition join_owner (d : database) (uid : Z) (s : file_row)
  : option file_listing :=
  if bool_decide (f_user_id s = uid) then
    u ← users d !! f_user_id s;
    Some {| fl_file := s; fl_username := u_username u |}
  else None.

Definition get_user_files (uid : Z) : M (list file_listing) :=
  d ← get_db;
  mret (merge_sort newer_first (omap (join_owner d uid) (storage d))).

(** [SELECT ... FROM storage WHERE id = $1] *)
Definition get_file_record (file_id : Z) : M (option file_row) :=
  d ← get_db;
  mret (List.find (λ r, bool_decide (f_id r = file_id)) (storage d)).

(** [DELETE FROM storage WHERE id = $1 RETURNING id], read with [fetchval]. *)
Definition delete_returning_id (file_id : Z) : M (option Z) :=
  d ← get_db;
  put_db (with_storage (filter (λ r, f_id r ≠ file_id)) d);;
  mret (f_id <$> List.find (λ r, bool_decide (f_id r = file_id)) (storage d)).

(** Python truthiness of an optional integer. *)
Definition truthy_int (o : option Z) : bool :=
  match o with Some n => bool_decide (n ≠ 0) | None => false end.

Definition delete_file_record (file_id : Z) : M (option string) :=
  file_record ← get_file_record file_id;
  match file_record with
  | None => mret None
  | Some r =>
      let file_path_to_delete := f_file_path r in
      deleted_id ← delete_returning_id file_id;
      if truthy_int deleted_id then mret (Some file_path_to_delete)
      else mret None
  end.

(** [INSERT INTO logs (user_id, action_description) VALUES ($1, $2)] *)
Definition insert_log (e : env) (uid : option Z) (description : string)
  : M unit :=
  d ← get_db;
  if match uid with
     | Some u => bool_decide (is_Some (users d !! u))
     | None => true
     end
  then put_db (with_logs (λ l, (l ++ [{| l_user_id := uid;
                 l_action_description := description;
                 l_timestamp := env_now e |}])%list) d)
  else raise IntegrityConstraintViolationError.

(** A failure to write the audit row is reported to the logger only. *)
Definition log_user_action (e : env) (uid : option Z) (description : string)
  : M unit :=
  try_except (insert_log e uid description) (λ _, mret ()).

(** ** [src/handlers/user_handlers.py] *)

Definition AUTH_PROMPT : string :=
  Str.LF +:+ "Будь ласка, використайте команду `/auth <ваш_ключ>` або натисніть кнопку 'Авторизація'.".

Definition TEMP_DIR : string := "temp".

(** A Python set; its iteration order, and so the order in which
    [", ".join] lists it, is not fixed by the language. *)
Definition ALLOWED_DOC_EXTENSIONS : list string :=
  [".pdf"; ".doc"; ".docx"; ".xlsx"].

Definition UNAUTHORIZED_MESSAGE : string :=
  "Ця функція доступна тільки авторизованим користувачам.".

(** *** The objects handlers act through *)

(** [message.answer(...)] *)
Definition answer (m : Message) (body : string) (markup : option keyboard)
  : M unit :=
  emit (send_message (chat_id m) None body markup).

(** [message.reply(...)] *)
Definition reply (m : Message) (body : string) (markup : option keyboard)
  : M unit :=
  emit (send_message (chat_id m) (Some (message_id m)) body markup).

(** [bot.send_message(chat_id, ...)] *)
Definition bot_send_message (chat : Z) (body : string)
  (markup : option keyboard) : M unit :=
  emit (send_message chat None body markup).

(** [query.answer(...)] *)
Definition query_answer (body : option string) (show_alert : bool) : M unit :=
  emit (answer_callback body show_alert).

(** [query.message.edit_text(...)]: an attribute of [None] cannot be read. *)
Definition query_message_edit_text (q : CallbackQuery) (body : string)
  : M unit :=
  match cq_message q with
  | Some cm => emit (edit_text (cb_chat_id cm) (cb_message_id cm) body)
  | None => raise AttributeError
  end.

(** [state.set_state(s)], [state.clear()], [state.get_state()]: the FSM
    context of the user the event comes from. *)
Definition set_state (uid : Z) (s : FileUpload) : M unit := λ w,
  (Ok (), {| db := db w; fsm := <[uid := s]> (fsm w); disk := disk w;
             outbox := outbox w |}).

Definition clear_state (uid : Z) : M unit := λ w,
  (Ok (), {| db := db w; fsm := delete uid (fsm w); disk := disk w;
             outbox := outbox w |}).

Definition get_state (uid : Z) : M (option FileUpload) := λ w,
  (Ok (fsm w !! uid), w).

Definition state_name (s : FileUpload) : string :=
  match s with
  | choosing_file_type => "FileUpload:choosing_file_type"
  | awaiting_document => "FileUpload:awaiting_document"
  | awaiting_photo => "FileUpload:awaiting_photo"
  end.

Definition write_file (path : string) : M unit := λ w,
  (Ok (), {| db := db w; fsm := fsm w; disk := {[path]} ∪ disk w;
             outbox := outbox w |}).

Definition unlink (path : string) : M unit := λ w,
  (Ok (), {| db := db w; fsm := fsm w; disk := disk w ∖ {[path]};
             outbox := outbox w |}).

Definition is_file (path : string) : M bool := λ w,
  (Ok (bool_decide (path ∈ disk w)), w).

(** [for x in l: body(x)] *)
Fixpoint for_each {A} (l : list A) (body : A → M unit) : M unit :=
  match l with
  | [] => mret ()
  | x :: l' => body x;; for_each l' body
  end.

(** [o or d] for an optional string. *)
Definition or_else (o : option string) (d : string) : string :=
  match o with
  | Some s => if Str.truthy s then s else d
  | None => d
  end.

(** *** [require_authorization] *)

(** What the wrapper reads from a [Message] or a [CallbackQuery]. The
    dispatcher always passes the pool and the bot, and every event of a
    chat carries its sender. *)
Class TelegramEvent (E : Type) := {
  event_user : E → User;
  event_chat_id : E → option Z;
  is_callback_query : E → bool;
}.

#[global] Instance Message_event : TelegramEvent Message := {|
  event_user := from_user;
  event_chat_id := λ m, Some (chat_id m);
  is_callback_query := λ _, false;
|}.

#[global] Instance CallbackQuery_event : TelegramEvent CallbackQuery := {|
  event_user := cq_from_user;
  event_chat_id := λ q, cb_chat_id <$> cq_message q;
  is_callback_query := λ _, true;
|}.

(** [user_record and user_record['is_authorized']] *)
Definition is_authorized (user_record : option user_row) : bool :=
  match user_record with
  | Some r => u_is_authorized r
  | None => false
  end.

Definition require_authorization {E} `{TelegramEvent E}
  (func : E → M unit) (event : E) : M unit :=
  let user := event_user event in
  let chat := event_chat_id event in
  user_record ← get_user (user_id user);
  if is_authorized user_record then func event
  else
    when (truthy_int chat)
      (bot_send_message (default 0 chat) UNAUTHORIZED_MESSAGE
         (Some main_menu_unauthorized));;
    when (is_callback_query event)
      (query_answer (Some UNAUTHORIZED_MESSAGE) true).

(** *** Helpers *)

Definition strftime (t : Z) : string := pretty t.

Definition _format_file_info (file_record : file_listing) : string :=
  let f := fl_file file_record in
  let uploaded_time_str := strftime (f_uploaded_at f) in
  let display_file_type :=
    if String.eqb (f_file_type f) "photo" then "Фото" else "Документ" in
  "Файл № " +:+ pretty (f_id f) +:+ "**" +:+ Str.LF +:+
  "Завантажив: " +:+ or_else (fl_username file_record) "Невідомо" +:+ Str.LF +:+
  "Дата та час: " +:+ uploaded_time_str +:+ Str.LF +:+
  "Тип файлу: " +:+ display_file_type +:+ Str.LF +:+
  "Назва файлу: `" +:+ f_original_filename f +:+ "`".

Definition _save_uploaded_file (e : env) (file_id : string) (uid : Z)
  (desired_filename : string) : M (option string) :=
  if env_mkdir_fails e then mret None
  else
    let file_path_on_disk :=
      Path.joinpath [TEMP_DIR; pretty uid; desired_filename] in
    if env_download_fails e then mret None
    else write_file file_path_on_disk;; mret (Some file_path_on_disk).

Definition _delete_file_from_disk (e : env) (file_path_str : string) : M unit :=
  if negb (Str.truthy file_path_str) then mret ()
  else
    present ← is_file file_path_str;
    if (present : bool) then
      if env_unlink_fails e then mret () else unlink file_path_str
    else mret ().

(** *** Handlers, in the order the router registers them *)

Definition uid_of (m : Message) : Z := user_id (from_user m).

Definition cmd_start (e : env) (message : Message) : M unit :=
  let uid := uid_of message in
  let uname := username (from_user message) in
  user_record ← get_user uid;
  let greeting := "Привіт, " +:+ Str.of_opt uname +:+ "!" in
  let log_desc := "User " +:+ pretty uid +:+ " used /start." in
  '(reply_markup, greeting, log_desc) ←
    match user_record with
    | Some r =>
        if u_is_authorized r then
          mret (main_menu_authorized,
                "З поверненням, " +:+ or_else (u_username r) "user" +:+ "!",
                log_desc +:+ " Already registered and authorized.")
        else
          mret (main_menu_unauthorized,
                greeting +:+ " Ви зареєстровані, але ще не авторизовані."
                  +:+ AUTH_PROMPT,
                log_desc +:+ " Already registered, but not authorized.")
    | None =>
        try_except
          (add_user e uid uname;;
           log_user_action e (Some uid)
             ("User " +:+ pretty uid +:+ " registered.");;
           mret (main_menu_unauthorized,
                 greeting +:+ "Ви зареєстровані в системі." +:+ AUTH_PROMPT,
                 log_desc +:+ "New user registration."))
          (λ _,
           log_user_action e (Some uid)
             ("User " +:+ pretty uid +:+ " registration failed.");;
           mret (main_menu_unauthorized,
                 "Виникла помилка під час реєстрації. Спробуйте пізніше.",
                 log_desc +:+ "Registration failed."))
    end;
  answer message greeting (Some reply_markup);;
  when (negb (Str.contains "registered" log_desc)
        && negb (Str.contains "failed" log_desc))
    (log_user_action e (Some uid) log_desc).

Definition cmd_auth (e : env) (message : Message) (cmd : CommandObject)
  : M unit :=
  let uid := uid_of message in
  let uname := username (from_user message) in
  let log_desc_base := "User " +:+ pretty uid +:+ " attempted authorization" in
  user_record ← get_user uid;
  match user_record with
  | None =>
      answer message
        "Будь ласка, спочатку зареєструйтесь за допомогою команди /start."
        (Some main_menu_unauthorized);;
      log_user_action e (Some uid) (log_desc_base +:+ " - failed: not registered.")
  | Some r =>
      if u_is_authorized r then
        answer message (Str.of_opt uname +:+ ", ви вже авторизовані.")
          (Some main_menu_authorized);;
        log_user_action e (Some uid)
          (log_desc_base +:+ " - failed: already authorized.")
      else
        match args cmd with
        | Some auth_key =>
            if Str.truthy auth_key then
              try_except
                ('(success, response_message) ←
                   authorize_user_with_key e uid auth_key;
                 if (success : bool) then
                   log_user_action e (Some uid)
                     (log_desc_base +:+ " - successful with key '"
                        +:+ auth_key +:+ "'.");;
                   answer message
                     ("Вітаємо, " +:+ Str.of_opt uname +:+ "! "
                        +:+ response_message)
                     (Some main_menu_authorized)
                 else
                   log_user_action e (Some uid)
                     (log_desc_base +:+ " - failed: " +:+ response_message);;
                   answer message response_message
                     (Some main_menu_unauthorized))
                (λ _,
                 answer message
                   "Виникла внутрішня помилка під час авторизації. Спробуйте пізніше."
                   None;;
                 log_user_action e (Some uid)
                   (log_desc_base +:+ " - failed: internal error."))
            else
              answer message
                "Будь ласка, вкажіть ключ авторизації після команди. Приклад: `/auth ваш_ключ`"
                None;;
              log_user_action e (Some uid)
                (log_desc_base +:+ " - failed: no key provided.")
        | None =>
            answer message
              "Будь ласка, вкажіть ключ авторизації після команди. Приклад: `/auth ваш_ключ`"
              None;;
            log_user_action e (Some uid)
              (log_desc_base +:+ " - failed: no key provided.")
        end
  end.

Definition handle_auth_button (e : env) (message : Message) : M unit :=
  let uid := uid_of message in
  log_user_action e (Some uid)
    ("User " +:+ pretty uid +:+ " pressed 'Авторизація' button.");;
  user_record ← get_user uid;
  match user_record with
  | Some r =>
      if u_is_authorized r then
        answer message "Ви вже авторизовані." (Some main_menu_authorized)
      else
        answer message
          "Будь ласка, введіть команду `/auth <ваш_ключ>` для авторизації."
          None
  | None =>
      answer message "Будь ласка, спочатку використайте /start для реєстрації."
        None
  end.

Definition handle_logout (e : env) (message : Message) : M unit :=
  let uid := uid_of message in
  set_user_authorization_status uid false;;
  log_user_action e (Some uid) ("User " +:+ pretty uid +:+ " logged out.");;
  answer message "Ви успішно розлогінились." (Some main_menu_unauthorized).

Definition handle_process_file (e : env) (message : Message) : M unit :=
  let uid := uid_of message in
  log_user_action e (Some uid)
    ("User " +:+ pretty uid +:+ " pressed 'Обробити файл' button.");;
  answer message "Оберіть тип файлу для завантаження:"
    (Some file_type_keyboard);;
  set_state uid choosing_file_type.

Definition handle_list_files (e : env) (message : Message) : M unit :=
  let uid := uid_of message in
  log_user_action e (Some uid)
    ("User " +:+ pretty uid
       +:+ " pressed 'Список завантаженних файлів' button.");;
  files ← get_user_files uid;
  match files with
  | [] => answer message "Ви ще не завантажували файли." None
  | _ =>
      answer message "Ваші завантажені файли:" None;;
      for_each files (λ file_record,
        answer message (_format_file_info file_record)
          (Some (create_delete_button (f_id (fl_file file_record)))))
  end.

Definition handle_file_type_choice (e : env) (query : CallbackQuery)
  (file_type : string) : M unit :=
  let uid := user_id (cq_from_user query) in
  log_user_action e (Some uid)
    ("User " +:+ pretty uid +:+ " chose file type '" +:+ file_type +:+ "'.");;
  query_answer None false;;
  if String.eqb file_type "document" then
    query_message_edit_text query
      ("Будь ласка, завантажте документ ("
         +:+ Str.join ", " ALLOWED_DOC_EXTENSIONS +:+ "). Або /cancel");;
    set_state uid awaiting_document
  else if String.eqb file_type "photo" then
    query_message_edit_text query "Будь ласка, завантажте фото. Або /cancel";;
    set_state uid awaiting_photo
  else
    query_message_edit_text query "Невідомий тип файлу. Спробуйте ще раз.";;
    clear_state uid.

(** Python truthiness of an optional string. *)
Definition truthy_str (o : option string) : bool :=
  match o with Some s => Str.truthy s | None => false end.

Definition handle_delete_file (e : env) (query : CallbackQuery) (file_id : Z)
  : M unit :=
  let uid := user_id (cq_from_user query) in
  let log_desc_base :=
    "User " +:+ pretty uid +:+ " attempted to delete file ID "
      +:+ pretty file_id in
  file_path_to_delete ← delete_file_record file_id;
  if truthy_str file_path_to_delete then
    _delete_file_from_disk e (default "" file_path_to_delete);;
    query_answer (Some "Файл видалено.") false;;
    log_user_action e (Some uid) (log_desc_base +:+ " - successful.");;
    match cq_message query with
    | Some cm =>
        if truthy_str (cb_text cm) then
          emit (edit_text (cb_chat_id cm) (cb_message_id cm)
                  (default "" (cb_text cm) +:+ Str.LF +:+ Str.LF
                     +:+ " **Видалено**"))
        else emit (delete_message (cb_chat_id cm) (cb_message_id cm))
    | None => mret ()
    end
  else
    file_record ← get_file_record file_id;
    if match file_record with
       | Some r => bool_decide (f_user_id r ≠ uid)
       | None => false
       end
    then
      query_answer
        (Some "Помилка: Неможливо видалити файл іншого користувача.") true;;
      log_user_action e (Some uid)
        (log_desc_base +:+ " - failed: permission denied.")
    else
      query_answer (Some "Помилка: Файл не знайдено або вже видалено.") true;;
      match cq_message query with
      | Some cm =>
          when (truthy_str (cb_text cm)
                && negb (Str.contains "Видалено" (default "" (cb_text cm))))
            (emit (edit_text (cb_chat_id cm) (cb_message_id cm)
                     (default "" (cb_text cm) +:+ Str.LF +:+ Str.LF
                        +:+ "*Помилка видалення або вже видалено*")))
      | None => mret ()
      end.

Definition allowed_extension (file_extension : string) : bool :=
  bool_decide (file_extension ∈ ALLOWED_DOC_EXTENSIONS).

Definition INVALID_FORMAT (file_extension : string) : string :=
  "Невірний формат (" +:+ file_extension +:+ "). Дозволено: "
    +:+ Str.join ", " ALLOWED_DOC_EXTENSIONS +:+ "." +:+ Str.LF
    +:+ "Надішліть інший файл або /cancel.".

Definition DOCUMENT_NOT_SAVED : string :=
  "Не вдалося зберегти файл. Спробуйте ще раз або /cancel.".

Definition DOCUMENT_UPLOADED (original_filename : string) : string :=
  "Документ '" +:+ original_filename +:+ "' завантажено!".

Definition DOCUMENT_DB_ERROR : string :=
  "Файл завантажено, але сталася помилка при збереженні запису в базу. Зверніться до адміністратора.".

Definition handle_document_upload (e : env) (message : Message) : M unit :=
  let uid := uid_of message in
  match document message with
  | None => raise AttributeError
  | Some doc =>
      let original_filename := or_else (file_name doc) "unknown_document" in
      let file_extension := Str.lower (Path.suffix original_filename) in
      if negb (allowed_extension file_extension) then
        reply message (INVALID_FORMAT file_extension) None;;
        log_user_action e (Some uid)
          ("User " +:+ pretty uid
             +:+ " sent wrong input while awaiting document. Invalid format ("
             +:+ file_extension +:+ ").")
      else
        let save_filename := doc_file_unique_id doc +:+ file_extension in
        saved_path ← _save_uploaded_file e (doc_file_id doc) uid save_filename;
        match saved_path with
        | None =>
            reply message DOCUMENT_NOT_SAVED None;;
            log_user_action e (Some uid)
              ("User " +:+ pretty uid
                 +:+ " sent wrong input while awaiting document. Could not save file.")
        | Some path =>
            try_except
              (add_file_record e uid path original_filename "document";;
               answer message (DOCUMENT_UPLOADED original_filename)
                 (Some main_menu_authorized);;
               log_user_action e (Some uid)
                 ("User " +:+ pretty uid +:+ " successfully uploaded document '"
                    +:+ original_filename +:+ "'");;
               clear_state uid)
              (λ _,
               reply message DOCUMENT_DB_ERROR None;;
               log_user_action e (Some uid)
                 ("User " +:+ pretty uid +:+ " failed to save document '"
                    +:+ original_filename +:+ "' to database.");;
               clear_state uid)
        end
  end.

Definition PHOTO_NOT_SAVED : string :=
  "Не вдалося зберегти фото. Спробуйте ще раз або /cancel.".

Definition PHOTO_UPLOADED : string := "Фото успішно завантажено!".

Definition PHOTO_DB_ERROR : string :=
  "Фото завантажено, але сталася помилка при збереженні запису в базу. Зверніться до адміністратора.".

Definition handle_photo_upload (e : env) (message : Message) : M unit :=
  match List.last (Some <$> photo message) None with   (* message.photo[-1] *)
  | None => raise IndexError
  | Some largest =>
      let uid := uid_of message in
      let save_filename :=
        "photo_" +:+ photo_file_unique_id largest +:+ "_"
          +:+ env_timestamp e +:+ ".jpg" in
      let log_desc_base :=
        "User " +:+ pretty uid +:+ " attempted to upload photo '"
          +:+ save_filename +:+ "'" in
      saved_path ← _save_uploaded_file e (photo_file_id largest) uid save_filename;
      match saved_path with
      | None =>
          reply message PHOTO_NOT_SAVED None;;
          log_user_action e (Some uid)
            (log_desc_base +:+ " - failed: could not save photo.")
      | Some path =>
          try_except
            (add_file_record e uid path save_filename "photo";;
             answer message PHOTO_UPLOADED (Some main_menu_authorized);;
             log_user_action e (Some uid) (log_desc_base +:+ " - successful.");;
             clear_state uid)
            (λ _,
             reply message PHOTO_DB_ERROR None;;
             log_user_action e (Some uid)
               (log_desc_base +:+ " - failed: database error saving record.");;
             clear_state uid)
      end
  end.

Definition WRONG_DOCUMENT_INPUT : string :=
  "Очікується файл документа (" +:+ Str.join ", " ALLOWED_DOC_EXTENSIONS
    +:+ "). Надішліть файл або скасуйте: /cancel.".

Definition WRONG_PHOTO_INPUT : string :=
  "Очікується фото. Надішліть фото або скасуйте: /cancel.".

Definition WRONG_CHOICE_INPUT : string :=
  "Будь ласка, натисніть одну з кнопок вище ('Документ' або 'Фото') або скасуйте: /cancel.".

Definition handle_wrong_document_input (e : env) (message : Message) : M unit :=
  let uid := uid_of message in
  log_user_action e (Some uid)
    ("User " +:+ pretty uid +:+ " sent wrong input while awaiting document.");;
  reply message WRONG_DOCUMENT_INPUT None.

Definition handle_wrong_photo_input (e : env) (message : Message) : M unit :=
  let uid := uid_of message in
  log_user_action e (Some uid)
    ("User " +:+ pretty uid +:+ " sent wrong input while awaiting photo.");;
  reply message WRONG_PHOTO_INPUT None.

Definition handle_text_instead_of_callback (e : env) (message : Message)
  : M unit :=
  let uid := uid_of message in
  log_user_action e (Some uid)
    ("User " +:+ pretty uid
       +:+ " sent text instead of choosing file type button.");;
  reply message WRONG_CHOICE_INPUT None.

Definition cancel_upload_command (e : env) (message : Message) : M unit :=
  let uid := uid_of message in
  current_state ← get_state uid;
  match current_state with
  | None =>
      reply message "Немає активної дії для скасування."
        (Some main_menu_authorized)
  | Some s =>
      log_user_action e (Some uid)
        ("User " +:+ pretty uid +:+ " cancelled action in state "
           +:+ state_name s +:+ ".");;
      clear_state uid;;
      answer message "Дію скасовано." (Some main_menu_authorized)
  end.

(** ** The router *)

(** A registered handler: its filters, whether it carries the
    [@require_authorization] decorator, and the decorated function. *)
Record route (E : Type) := {
  r_name : string;
  r_filter : E → option FileUpload → bool;
  r_gated : bool;
  r_func : E → M unit;
}.

Arguments r_name {E} r.
Arguments r_filter {E} r _ _.
Arguments r_gated {E} r.
Arguments r_func {E} r _.

(** [Command(name)] and [CommandStart()] *)
Definition is_command (name : string) (m : Message) : bool :=
  match msg_command m with
  | Some c => String.eqb (command c) name
  | None => false
  end.

(** [F.text == s] *)
Definition text_is (s : string) (m : Message) : bool :=
  match text m with
  | Some t => String.eqb t s
  | None => false
  end.

(** [StateFilter(s)] *)
Definition in_state (s : FileUpload) (st : option FileUpload) : bool :=
  bool_decide (st = Some s).

(** [StateFilter(FileUpload)]: any state of the group. *)
Definition in_file_upload (st : option FileUpload) : bool :=
  match st with Some _ => true | None => false end.

(** [F.document] and [F.photo] *)
Definition has_document (m : Message) : bool :=
  match document m with Some _ => true | None => false end.

Definition has_photo (m : Message) : bool :=
  match photo m with [] => false | _ :: _ => true end.

(** The filter hands the parsed [CommandObject] to the handler. *)
Definition with_command (h : Message → CommandObject → M unit) (m : Message)
  : M unit :=
  match msg_command m with
  | Some c => h m c
  | None => mret ()
  end.

Definition message_routes (e : env) : list (route Message) := [
  {| r_name := "cmd_start";
     r_filter := λ m _, is_command "start" m;
     r_gated := false; r_func := cmd_start e |};
  {| r_name := "cmd_auth";
     r_filter := λ m _, is_command "auth" m;
     r_gated := false; r_func := with_command (cmd_auth e) |};
  {| r_name := "handle_auth_button";
     r_filter := λ m _, text_is "Авторизація" m;
     r_gated := false; r_func := handle_auth_button e |};
  {| r_name := "handle_logout";
     r_filter := λ m _, text_is "Розлогінитись" m;
     r_gated := true; r_func := handle_logout e |};
  {| r_name := "handle_process_file";
     r_filter := λ m _, text_is "Обробити файл" m;
     r_gated := true; r_func := handle_process_file e |};
  {| r_name := "handle_list_files";
     r_filter := λ m _, text_is "Список завантаженних файлів" m;
     r_gated := true; r_func := handle_list_files e |};
  {| r_name := "handle_document_upload";
     r_filter := λ m st, in_state awaiting_document st && has_document m;
     r_gated := true; r_func := handle_document_upload e |};
  {| r_name := "handle_photo_upload";
     r_filter := λ m st, in_state awaiting_photo st && has_photo m;
     r_gated := true; r_func := handle_photo_upload e |};
  {| r_name := "handle_wrong_document_input";
     r_filter := λ _ st, in_state awaiting_document st;
     r_gated := true; r_func := handle_wrong_document_input e |};
  {| r_name := "handle_wrong_photo_input";
     r_filter := λ _ st, in_state awaiting_photo st;
     r_gated := true; r_func := handle_wrong_photo_input e |};
  {| r_name := "handle_text_instead_of_callback";
     r_filter := λ _ st, in_state choosing_file_type st;
     r_gated := true; r_func := handle_text_instead_of_callback e |};
  {| r_name := "cancel_upload_command";
     r_filter := λ m st, is_command "cancel" m && in_file_upload st;
     r_gated := false; r_func := cancel_upload_command e |}
].

(** [FileTypeCallbackData.filter()] and [DeleteFileCallbackData.filter()]
    hand the unpacked [callback_data] to the handler. *)
Definition is_file_type_data (q : CallbackQuery) : bool :=
  match cq_data q with FileTypeCallbackData _ => true | _ => false end.

Definition is_delete_file_data (q : CallbackQuery) : bool :=
  match cq_data q with DeleteFileCallbackData _ => true | _ => false end.

Definition with_file_type (h : CallbackQuery → string → M unit)
  (q : CallbackQuery) : M unit :=
  match cq_data q with
  | FileTypeCallbackData t => h q t
  | _ => mret ()
  end.

Definition with_file_id (h : CallbackQuery → Z → M unit) (q : CallbackQuery)
  : M unit :=
  match cq_data q with
  | DeleteFileCallbackData i => h q i
  | _ => mret ()
  end.

Definition callback_routes (e : env) : list (route CallbackQuery) := [
  {| r_name := "handle_file_type_choice";
     r_filter := λ q st, is_file_type_data q && in_state choosing_file_type st;
     r_gated := true; r_func := with_file_type (handle_file_type_choice e) |};
  {| r_name := "handle_delete_file";
     r_filter := λ q _, is_delete_file_data q;
     r_gated := true; r_func := with_file_id (handle_delete_file e) |}
].

(** The function the router calls for a route. *)
Definition registered {E} `{TelegramEvent E} (r : route E) : E → M unit :=
  if r_gated r then require_authorization (r_func r) else r_func r.

(** The first registered handler whose filters all pass. *)
Definition find_route {E} (routes : list (route E)) (ev : E)
  (st : option FileUpload) : option (route E) :=
  List.find (λ r, r_filter r ev st) routes.

Definition current_state {E} `{TelegramEvent E} (ev : E) (w : world)
  : option FileUpload :=
  fsm w !! user_id (event_user ev).

Definition dispatch_with {E} `{TelegramEvent E} (routes : list (route E))
  (ev : E) : M unit := λ w,
  match find_route routes ev (current_state ev w) with
  | Some r => registered r ev w
  | None => (Ok (), w)
  end.

(** One inbound event, handled to the end. *)
Definition dispatch (e : env) (ev : event) (w : world) : world :=
  match ev with
  | EvMessage m => exec (dispatch_with (message_routes e) m) w
  | EvCallback q => exec (dispatch_with (callback_routes e) q) w
  end.

(** The events of a run, each with what its environment decided. *)
Fixpoint run (evs : list (env * event)) (w : world) : world :=
  match evs with
  | [] => w
  | (e, ev) :: evs' => run evs' (dispatch e ev w)
  end.

Definition sender (ev : event) : User :=
  match ev with
  | EvMessage m => from_user m
  | EvCallback q => cq_from_user q
  end.

Definition state_of (w : world) (uid : Z) : option FileUpload := fsm w !! uid.

Definition authorized_in (w : world) (uid : Z) : bool :=
  is_authorized (users (db w) !! uid).

(** ** Concurrent callers of [authorize_user_with_key]

    Several handlers run the redeem transaction on one [auth_key], each on
    a connection of its own. A caller advances one statement at a time,
    in any order the scheduler picks. [SELECT ... FOR UPDATE] takes the
    lock of the row it returns and waits while another transaction holds
    it; the lock is released when the transaction ends. Updates reach the
    committed tables when the transaction commits. *)

Module Redeem.

(** Where a caller stands in [authorize_user_with_key]. *)
Inductive pc :=
| Begin                                   (* before [check_auth_key] *)
| Checked (key_record : option key_row)   (* after [check_auth_key] *)
| Marked                                  (* after [mark_key_used] *)
| Authorized                              (* after [set_user_authorized_in_transaction] *)
| Returned (r : result (bool * string)).  (* the transaction has ended *)

Record caller := { c_user : Z; c_pc : pc }.

Record config := {
  committed : database;
  lock : option nat;          (* the caller holding the row lock *)
  callers : list caller;
}.


Definition set_pc (i : nat) (u : Z) (p : pc) (l : list caller) : list caller :=
  <[i := {| c_user := u; c_pc := p |}]> l.

(** Both updates of a successful redemption, as the commit writes them. *)
Definition commit_writes (auth_key : string) (uid : Z) (d : database)
  : database :=
  with_users (alter (set_is_authorized true) uid)
    (with_auth_keys (alter set_is_used auth_key) d).

(** Caller [i] runs its next statement; [fails] says that the statement
    raises, which rolls the transaction back. A caller that waits for the
    lock, or has returned, does not move. *)
Definition fire (auth_key : string) (i : nat) (fails : bool) (cfg : config)
  : config :=
  match callers cfg !! i with
  | None => cfg
  | Some c =>
      let u := c_user c in
      let finish r unlock :=
        {| committed := committed cfg;
           lock := if (unlock : bool) then None else lock cfg;
           callers := set_pc i u (Returned r) (callers cfg) |} in
      let move p :=
        {| committed := committed cfg; lock := lock cfg;
           callers := set_pc i u p (callers cfg) |} in
      match c_pc c with
      | Returned _ => cfg
      | Begin =>
          match auth_keys (committed cfg) !! auth_key with
          | None =>
              if fails then finish (Raise PostgresError) false
              else move (Checked None)
          | Some k =>
              if fails then finish (Raise PostgresError) false
              else
                match lock cfg with
                | Some _ => cfg
                | None =>
                    {| committed := committed cfg; lock := Some i;
                       callers := set_pc i u (Checked (Some k)) (callers cfg) |}
                end
          end
      | Checked None =>
          if fails then finish (Raise PostgresError) false
          else finish (Ok (false, INVALID_KEY)) false
      | Checked (Some k) =>
          if fails then finish (Raise PostgresError) true
          else if k_is_used k then finish (Ok (false, KEY_ALREADY_USED)) true
          else move Marked
      | Marked =>
          if fails then finish (Raise PostgresError) true
          else move Authorized
      | Authorized =>
          if fails then finish (Raise PostgresError) true
          else
            {| committed := commit_writes auth_key u (committed cfg);
               lock := None;
               callers := set_pc i u (Returned (Ok (true, AUTH_SUCCESS)))
                            (callers cfg) |}
      end
  end.

(** A schedule: which caller moves next, and whether its statement
    raises. *)
Fixpoint schedule (auth_key : string) (s : list (nat * bool)) (cfg : config)
  : config :=
  match s with
  | [] => cfg
  | (i, fails) :: s' => schedule auth_key s' (fire auth_key i fails cfg)
  end.

(** Every caller is about to start, nobody holds the lock. *)
Definition initial (d : database) (uids : list Z) : config :=
  {| committed := d; lock := None;
     callers := (λ u, {| c_user := u; c_pc := Begin |}) <$> uids |}.

Definition returned (cfg : config) (i : nat) (r : result (bool * string))
  : Prop :=
  c_pc <$> callers cfg !! i = Some (Returned r).

Definition key_used (d : database) (auth_key : string) : Prop :=
  k_is_used <$> auth_keys d !! auth_key = Some true.



End Redeem.

(** The world after a successful redemption. *)
Definition redeemed (uid : Z) (auth_key : string) (w : world) : world :=
  {| db := Redeem.commit_writes auth_key uid (db w);
     fsm := fsm w; disk := disk w; outbox := outbox w |}.


(** ** Sample data

    Two registered users, one seeded key, one stored document. *)

Module Sample.

Definition calm : env :=
  {| env_now := 1000; env_timestamp := "20240101_120000";
     env_mkdir_fails := false; env_download_fails := false;
     env_unlink_fails := false; env_insert_fails := false;
     env_tx_fault := None |}.



Definition alice : User := {| user_id := 100; username := Some "alice" |}.
Definition bob : User := {| user_id := 200; username := Some "bob" |}.
Definition carol : User := {| user_id := 300; username := Some "carol" |}.

(** Dave has no row in [users]. *)
Definition dave : User := {| user_id := 400; username := Some "dave" |}.

Definition row (name : string) (authorized : bool) : user_row :=
  {| u_username := Some name; u_registered_at := 1;
     u_is_authorized := authorized |}.

Definition report : file_row :=
  {| f_id := 1; f_user_id := 100; f_file_path := "temp/100/AgAD.pdf";
     f_original_filename := "report.pdf"; f_file_type := "document";
     f_uploaded_at := 500 |}.

Definition tables : database :=
  {| users := <[100 := row "alice" true]> (<[200 := row "bob" true]>
                (<[300 := row "carol" false]> ∅));
     auth_keys := <["key123" := {| k_is_used := false; k_created_at := 0 |}]> ∅;
     storage := [report];
     storage_id_seq := 1;
     logs := [] |}.

Definition start : world :=
  {| db := tables; fsm := ∅; disk := {["temp/100/AgAD.pdf"]}; outbox := [] |}.

(** The same world with [uid] in upload state [s]. *)
Definition in_session (uid : Z) (s : FileUpload) : world :=
  {| db := tables; fsm := {[uid := s]}; disk := {["temp/100/AgAD.pdf"]};
     outbox := [] |}.

Definition text_message (u : User) (body : string) : Message :=
  {| from_user := u; chat_id := user_id u; message_id := 7;
     text := Some body; msg_command := None; document := None;
     photo := [] |}.

Definition document_message (u : User) (name : option string) : Message :=
  {| from_user := u; chat_id := user_id u; message_id := 8;
     text := None; msg_command := None;
     document := Some {| doc_file_id := "BQACAgIAAx"; doc_file_unique_id := "AgADcw";
                         file_name := name |};
     photo := [] |}.

Definition photo_message (u : User) : Message :=
  {| from_user := u; chat_id := user_id u; message_id := 9;
     text := None; msg_command := None; document := None;
     photo := [{| photo_file_id := "AgACAgIAAx"; photo_file_unique_id := "AQADyw" |}] |}.


Definition button (u : User) (data : callback_data) : CallbackQuery :=
  {| cq_from_user := u;
     cq_message := Some {| cb_chat_id := user_id u; cb_message_id := 11;
                           cb_text := Some "report.pdf" |};
     cq_data := data |}.

End Sample.

(** ** Names used in the statements *)

(** [original_filename], [file_extension] and the path of the blob, as
    [handle_document_upload] computes them. *)
Definition document_name (doc : Document) : string :=
  or_else (file_name doc) "unknown_document".

Definition document_extension (doc : Document) : string :=
  Str.lower (Path.suffix (document_name doc)).

Definition upload_path (uid : Z) (save_filename : string) : string :=
  Path.joinpath [TEMP_DIR; pretty uid; save_filename].

Definition document_path (uid : Z) (doc : Document) : string :=
  upload_path uid (doc_file_unique_id doc +:+ document_extension doc).

(** [message.photo[-1]] and [save_filename], as [handle_photo_upload]
    computes them. *)
Definition largest_photo (m : Message) : option PhotoSize :=
  List.last (Some <$> photo m) None.

Definition photo_name (e : env) (p : PhotoSize) : string :=
  "photo_" +:+ photo_file_unique_id p +:+ "_" +:+ env_timestamp e +:+ ".jpg".

(** The row [add_file_record] inserts. *)
Definition new_row (e : env) (w : world) (uid : Z)
  (file_path original_filename file_type : string) : file_row :=
  {| f_id := storage_id_seq (db w) + 1; f_user_id := uid;
     f_file_path := file_path; f_original_filename := original_filename;
     f_file_type := file_type; f_uploaded_at := env_now e |}.

(** The tables after [log_user_action] has written a row for a known user. *)
Definition logged (e : env) (uid : Z) (description : string) (d : database)
  : database :=
  with_logs (λ l, (l ++ [{| l_user_id := Some uid;
                            l_action_description := description;
                            l_timestamp := env_now e |}])%list) d.

(** The tables after [add_file_record] has inserted [row]. *)
Definition stored (row : file_row) (d : database) : database :=
  with_storage (λ s, (s ++ [row])%list)
    (with_storage_id_seq (storage_id_seq d + 1) d).

(** A message sent with [message.reply], without a keyboard. *)
Definition replied (m : Message) (body : string) : effect :=
  send_message (chat_id m) (Some (message_id m)) body None.

(** What [get_user_files] returns. *)
Definition listing (w : world) (uid : Z) : list file_listing :=
  merge_sort newer_first (omap (join_owner (db w) uid) (storage (db w))).



(** What [require_authorization] sends when it turns an event away. *)
Definition unauthorized_notice {E} `{TelegramEvent E} (ev : E) : list effect :=
  ((if truthy_int (event_chat_id ev)
    then [send_message (default 0 (event_chat_id ev)) None
            UNAUTHORIZED_MESSAGE (Some main_menu_unauthorized)]
    else [])
   ++ (if is_callback_query ev
       then [answer_callback (Some UNAUTHORIZED_MESSAGE) true]
       else []))%list.



(** The name of the handler the router picks for an event, and whether it
    is decorated. *)
Definition route_of (e : env) (ev : event) (w : world)
  : option (string * bool) :=
  match ev with
  | EvMessage m =>
      (λ r, (r_name r, r_gated r))
        <$> find_route (message_routes e) m (current_state m w)
  | EvCallback q =>
      (λ r, (r_name r, r_gated r))
        <$> find_route (callback_routes e) q (current_state q w)
  end.


(** A computation that leaves a part of the world as it found it. *)
Definition keeps {X A} (proj : world → X) (m : M A) : Prop :=
  ∀ w, proj (m w).2 = proj w.








(** ** Statements the proofs measure the code against *)



(** The message is none of the commands and buttons registered before the
    upload handlers; a message with a document or a photo has no text. *)
Definition plain_upload (m : Message) : Prop :=
  is_command "start" m = false ∧ is_command "auth" m = false ∧ text m = None.






(** ** Further vocabulary *)

(** The user and key tables. *)
Definition credentials (w : world) : gmap Z user_row * gmap string key_row :=
  (users (db w), auth_keys (db w)).


(** The parts of the world a handler can write to. *)
Inductive part := Users | Keys | Ledger | Logs | Sessions | Disk | Outbox.

#[global] Instance part_eq_dec : EqDecision part.
Proof. solve_decision. Defined.

Definition same_part (p : part) (w w' : world) : Prop :=
  match p with
  | Users => users (db w') = users (db w)
  | Keys => auth_keys (db w') = auth_keys (db w)
  | Ledger => storage (db w') = storage (db w)
              ∧ storage_id_seq (db w') = storage_id_seq (db w)
  | Logs => logs (db w') = logs (db w)
  | Sessions => fsm w' = fsm w
  | Disk => disk w' = disk w
  | Outbox => outbox w' = outbox w
  end.

(** Whether it returns or raises, the computation leaves every part
    outside [ps] as it found it. *)
Definition writes_only {A} (ps : list part) (m : M A) : Prop :=
  ∀ w p, p ∉ ps → same_part p w (m w).2.

(** The parts each registered handler writes to, at most. *)
Definition footprints : list (string * list part) := [
  ("cmd_start", [Users; Logs; Outbox]);
  ("cmd_auth", [Users; Keys; Logs; Outbox]);
  ("handle_auth_button", [Logs; Outbox]);
  ("handle_logout", [Users; Logs; Outbox]);
  ("handle_process_file", [Sessions; Logs; Outbox]);
  ("handle_list_files", [Logs; Outbox]);
  ("handle_file_type_choice", [Sessions; Logs; Outbox]);
  ("handle_delete_file", [Ledger; Disk; Logs; Outbox]);
  ("handle_document_upload", [Ledger; Disk; Sessions; Logs; Outbox]);
  ("handle_photo_upload", [Ledger; Disk; Sessions; Logs; Outbox]);
  ("handle_wrong_document_input", [Logs; Outbox]);
  ("handle_wrong_photo_input", [Logs; Outbox]);
  ("handle_text_instead_of_callback", [Logs; Outbox]);
  ("cancel_upload_command", [Sessions; Logs; Outbox])
].

Definition footprint_of (name : string) : option (list part) :=
  snd <$> List.find (λ entry, String.eqb entry.1 name) footprints.

(** A message sent with [message.answer]. *)
Definition answered (m : Message) (body : string) (markup : option keyboard)
  : effect :=
  send_message (chat_id m) None body markup.

(** The row [add_user] inserts for the sender of a message. *)
Definition registration (e : env) (m : Message) : user_row :=
  {| u_username := username (from_user m); u_registered_at := env_now e;
     u_is_authorized := false |}.

(** The menu that goes with a user's status. *)
Definition menu_for (authorized : bool) : keyboard :=
  if authorized then main_menu_authorized else main_menu_unauthorized.
Fixpoint every_char (P : ascii → bool) (s : string) : bool :=
  match s with
  | EmptyString => true
  | String c s' => P c && every_char P s'
  end.

Definition decimal_char (c : ascii) : bool :=
  bool_decide (c ∈ ["0"; "1"; "2"; "3"; "4"; "5"; "6"; "7"; "8"; "9"; "-"]%char).

(** A command as the dispatcher parses it: [/name args]. *)
Definition command_message (u : User) (name : string) (arguments : option string)
  : Message :=
  {| from_user := u; chat_id := user_id u; message_id := 5;
     text := Some ("/" +:+ name +:+ match arguments with
                                    | Some a => " " +:+ a
                                    | None => ""
                                    end);
     msg_command := Some {| command := name; args := arguments |};
     document := None; photo := [] |}.

(** What one event does to the user and key tables: nothing, a
    registration, a redemption, or a logout. *)
Inductive credentials_step (e : env) (ev : event) (w w' : world) : Prop :=
| step_same :
    credentials w' = credentials w → credentials_step e ev w w'
| step_register m :
    ev = EvMessage m →
    users (db w) !! uid_of m = None →
    credentials w'
      = (<[uid_of m := registration e m]> (users (db w)), auth_keys (db w)) →
    credentials_step e ev w w'
| step_redeem m c k r kr :
    ev = EvMessage m →
    msg_command m = Some c → command c = "auth" → args c = Some k →
    users (db w) !! uid_of m = Some r → u_is_authorized r = false →
    auth_keys (db w) !! k = Some kr → k_is_used kr = false →
    credentials w'
      = (alter (set_is_authorized true) (uid_of m) (users (db w)),
         alter set_is_used k (auth_keys (db w))) →
    credentials_step e ev w w'
| step_logout m :
    ev = EvMessage m →
    authorized_in w (uid_of m) = true →
    credentials w'
      = (alter (set_is_authorized false) (uid_of m) (users (db w)),
         auth_keys (db w)) →
    credentials_step e ev w w'.

(** The users whose flag is set, and the keys still to be redeemed. *)
Definition authorized_users (w : world) : gset Z :=
  dom (filter (λ p, u_is_authorized p.2 = true) (users (db w))).

Definition unused_keys (w : world) : gset string :=
  dom (filter (λ p, k_is_used p.2 = false) (auth_keys (db w))).

(** The answers of [handle_delete_file]. *)
Definition PERMISSION_DENIED : effect :=
  answer_callback
    (Some "Помилка: Неможливо видалити файл іншого користувача.") true.

Definition FILE_DELETED : effect :=
  answer_callback (Some "Файл видалено.") false.

Definition FILE_NOT_FOUND : effect :=
  answer_callback (Some "Помилка: Файл не знайдено або вже видалено.") true.

(** [SELECT ... FROM storage WHERE id = $1], on the tables. *)
Definition file_record (w : world) (file_id : Z) : option file_row :=
  List.find (λ r, bool_decide (f_id r = file_id)) (storage (db w)).

(** [delete_file_record] hands back a path the handler takes as true. *)
Definition path_returned (row : file_row) : bool :=
  Str.truthy (f_file_path row) && bool_decide (f_id row ≠ 0).

(** What one event does to the file ledger: nothing, one row appended
    under the next id for the sender of an upload, or the rows of one id
    removed on a delete button. *)
Inductive ledger_step (e : env) (ev : event) (w w' : world) : Prop :=
| ledger_same :
    storage (db w') = storage (db w) →
    storage_id_seq (db w') = storage_id_seq (db w) →
    ledger_step e ev w w'
| ledger_insert m row :
    ev = EvMessage m →
    authorized_in w (uid_of m) = true →
    storage (db w') = (storage (db w) ++ [row])%list →
    storage_id_seq (db w') = storage_id_seq (db w) + 1 →
    f_id row = storage_id_seq (db w) + 1 →
    f_user_id row = uid_of m →
    f_uploaded_at row = env_now e →
    f_file_path row ∈ disk w' →
    ledger_step e ev w w'
| ledger_delete q i :
    ev = EvCallback q →
    cq_data q = DeleteFileCallbackData i →
    authorized_in w (user_id (cq_from_user q)) = true →
    storage (db w') = filter (λ r, f_id r ≠ i) (storage (db w)) →
    storage_id_seq (db w') = storage_id_seq (db w) →
    ledger_step e ev w w'.

(** Ids come from the sequence and are not reused. *)
Definition ids_fresh (w : world) : Prop :=
  Forall (λ r, f_id r ≤ storage_id_seq (db w)) (storage (db w))
  ∧ NoDup (f_id <$> storage (db w)).

(** An id the sequence has passed and no row holds. *)
Definition retired (w : world) (i : Z) : Prop :=
  i ≤ storage_id_seq (db w) ∧ i ∉ f_id <$> storage (db w).

(** [keyboards.py]: the texts on the buttons of a reply keyboard, and the
    callback data behind the buttons of an inline keyboard. *)
Definition button_texts (k : keyboard) : list string :=
  match k with
  | main_menu_authorized =>
      ["Обробити файл"; "Список завантаженних файлів"; "Розлогінитись"]
  | main_menu_unauthorized => ["Авторизація"]
  | file_type_keyboard | create_delete_button _ => []
  end.

Definition button_data (k : keyboard) : list callback_data :=
  match k with
  | file_type_keyboard =>
      [FileTypeCallbackData "document"; FileTypeCallbackData "photo"]
  | create_delete_button file_id => [DeleteFileCallbackData file_id]
  | main_menu_authorized | main_menu_unauthorized => []
  end.



Definition choice_state (file_type : string) : option FileUpload :=
  if String.eqb file_type "document" then Some awaiting_document
  else if String.eqb file_type "photo" then Some awaiting_photo
  else None.


(** ** [create_tables]

    The four [CREATE TABLE IF NOT EXISTS] statements leave a table that
    exists as it is, and [database] always holds the four tables. What is
    left is the seeding: when [auth_keys] is empty the three test keys are
    inserted with the column defaults. All of it is one transaction;
    [fault] names the insert that raises (0, 1, 2) or the commit (3). *)
Definition test_keys : list string := ["key123"; "secretkey"; "auth777"].

(** [INSERT INTO auth_keys (auth_key) VALUES ($1)] *)
Definition insert_key (e : env) (auth_key : string) : M unit :=
  d ← get_db;
  match auth_keys d !! auth_key with
  | Some _ => raise UniqueViolationError
  | None =>
      put_db (with_auth_keys
                (insert auth_key {| k_is_used := false;
                                    k_created_at := env_now e |}) d)
  end.

Definition create_tables (e : env) (fault : option nat) : M unit :=
  transaction (bool_decide (fault = Some 3%nat))
    (d ← get_db;
     let key_count := size (auth_keys d) in
     if bool_decide (key_count = 0%nat) then
       for_each (imap pair test_keys) (λ '(i, auth_key),
         if bool_decide (fault = Some i) then raise PostgresError
         else insert_key e auth_key)
     else mret ()).

(** The key table after the seeding. *)
Definition seeded (e : env) : gmap string key_row :=
  foldl (λ keys k, <[k := {| k_is_used := false; k_created_at := env_now e |}]>
                     keys)
    ∅ test_keys.

(** * Proofs *)

(** ** Running the monad *)

Ltac unfold_monad :=
  cbv [mbind M_bind mret M_ret raise try_except when get_db put_db modify_db
       emit exec transaction rollback statement] in *.

Lemma world_eta (w : world) :
  {| db := db w; fsm := fsm w; disk := disk w; outbox := outbox w |} = w.
Proof. by destruct w. Qed.

Lemma database_eta (d : database) :
  {| users := users d; auth_keys := auth_keys d; storage := storage d;
     storage_id_seq := storage_id_seq d; logs := logs d |} = d.
Proof. by destruct d. Qed.

(** ** Redeeming a key: [authorize_user_with_key] *)

Lemma authorize_no_fault (e : env) (uid : Z) (auth_key : string) (w : world) :
  env_tx_fault e = None →
  authorize_user_with_key e uid auth_key w =
    match auth_keys (db w) !! auth_key with
    | None => (Ok (false, INVALID_KEY), w)
    | Some k =>
        if k_is_used k then (Ok (false, KEY_ALREADY_USED), w)
        else (Ok (true, AUTH_SUCCESS),
              {| db := Redeem.commit_writes auth_key uid (db w);
                 fsm := fsm w; disk := disk w; outbox := outbox w |})
    end.
Proof.
  intros Hf. unfold authorize_user_with_key, check_auth_key, mark_key_used,
    set_user_authorized_in_transaction.
  unfold_monad. rewrite Hf. simpl.
  destruct (auth_keys (db w) !! auth_key) as [k|]; [|done].
  destruct (k_is_used k); done.
Qed.

Lemma authorize_all_or_nothing (e : env) (uid : Z) (auth_key : string)
  (w : world) :
  (authorize_user_with_key e uid auth_key w
     = (Ok (true, AUTH_SUCCESS), redeemed uid auth_key w)
   ∧ k_is_used <$> auth_keys (db w) !! auth_key = Some false)
  ∨ ((∀ m, (authorize_user_with_key e uid auth_key w).1 ≠ Ok (true, m))
     ∧ (authorize_user_with_key e uid auth_key w).2 = w).
Proof.
  destruct (env_tx_fault e) as [n|] eqn:Hf.
  - unfold authorize_user_with_key, check_auth_key, mark_key_used,
      set_user_authorized_in_transaction.
    unfold_monad. rewrite Hf.
    destruct n as [|[|[|[|n]]]]; simpl;
      destruct (auth_keys (db w) !! auth_key) as [k|] eqn:Hk; simpl;
      try destruct (k_is_used k) eqn:Hu; simpl;
      try (right; split; [by intros m [=] | by rewrite ?world_eta]).
    left. by split.
  - rewrite (authorize_no_fault _ _ _ _ Hf).
    destruct (auth_keys (db w) !! auth_key) as [k|] eqn:Hk; simpl;
      [destruct (k_is_used k) eqn:Hu|]; simpl.
    + right. split; [by intros m [=] | done].
    + left. split; [done | by rewrite ?Hu].
    + right. split; [by intros m [=] | done].
Qed.

Lemma commit_writes_key (auth_key : string) (uid : Z) (d : database) :
  is_Some (auth_keys d !! auth_key) →
  k_is_used <$> auth_keys (Redeem.commit_writes auth_key uid d) !! auth_key
    = Some true.
Proof.
  intros [k Hk]. unfold Redeem.commit_writes. simpl.
  by rewrite lookup_alter_eq, Hk.
Qed.

Lemma commit_writes_user (auth_key : string) (uid : Z) (d : database) :
  is_Some (users d !! uid) →
  is_authorized (users (Redeem.commit_writes auth_key uid d) !! uid) = true.
Proof.
  intros [u Hu]. unfold Redeem.commit_writes. simpl.
  by rewrite lookup_alter_eq, Hu.
Qed.

(** C1. [authorize_user_with_key] answers "invalid key" when no row holds
    the key and "already used" when the row is used, leaving the tables as
    they are; otherwise it returns success with both flags written. Whatever
    statement fails, the tables end with both writes (and success returned)
    or exactly as they were. The user's flag reads true afterwards when the
    user's row exists, which the caller has checked. *)
Theorem redeem_contract (e : env) (uid : Z) (auth_key : string) (w : world) :
  let out := authorize_user_with_key e uid auth_key w in
  (env_tx_fault e = None →
   match auth_keys (db w) !! auth_key with
   | None => out = (Ok (false, INVALID_KEY), w)
   | Some k =>
       if k_is_used k then out = (Ok (false, KEY_ALREADY_USED), w)
       else out = (Ok (true, AUTH_SUCCESS), redeemed uid auth_key w)
   end)
  ∧ ((∃ m, out.1 = Ok (true, m)) →
     out.2 = redeemed uid auth_key w
     ∧ k_is_used <$> auth_keys (db w) !! auth_key = Some false
     ∧ Redeem.key_used (db out.2) auth_key
     ∧ (is_Some (users (db w) !! uid) → authorized_in out.2 uid = true)
     ∧ (∀ k, k ≠ auth_key →
          auth_keys (db out.2) !! k = auth_keys (db w) !! k)
     ∧ (∀ u, u ≠ uid → users (db out.2) !! u = users (db w) !! u))
  ∧ ((∀ m, out.1 ≠ Ok (true, m)) → out.2 = w).
Proof.
  intros out. split; [|split].
  - intros Hf. unfold out. rewrite (authorize_no_fault _ _ _ _ Hf).
    destruct (auth_keys (db w) !! auth_key) as [k|]; [|done].
    by destruct (k_is_used k).
  - intros [m Hm].
    destruct (authorize_all_or_nothing e uid auth_key w) as [[Heq Hk]|[Hne _]];
      [|by destruct (Hne m)].
    unfold out. rewrite Heq. simpl. split; [done|]. split; [done|].
    split; [|split; [|split]].
    + apply commit_writes_key. destruct (auth_keys (db w) !! auth_key); by eauto.
    + apply commit_writes_user.
    + intros k Hne. by rewrite lookup_alter_ne.
    + intros u Hne. by rewrite lookup_alter_ne.
  - intros Hne.
    destruct (authorize_all_or_nothing e uid auth_key w) as [[Heq _]|[_ Hw]];
      [|done].
    destruct (Hne AUTH_SUCCESS). unfold out. by rewrite Heq.
Qed.

Lemma redeem_contract_witness :
  authorize_user_with_key Sample.calm 300 "key123" Sample.start
    = (Ok (true, AUTH_SUCCESS), redeemed 300 "key123" Sample.start)
  ∧ authorized_in (redeemed 300 "key123" Sample.start) 300 = true
  ∧ authorize_user_with_key Sample.calm 300 "nokey" Sample.start
    = (Ok (false, INVALID_KEY), Sample.start)
  ∧ authorize_user_with_key Sample.calm 200 "key123"
      (redeemed 300 "key123" Sample.start)
    = (Ok (false, KEY_ALREADY_USED), redeemed 300 "key123" Sample.start).
Proof.
  pose proof (redeem_contract Sample.calm 300 "key123" Sample.start) as (H1 & H2 & _).
  pose proof (redeem_contract Sample.calm 300 "nokey" Sample.start) as (H3 & _).
  pose proof (redeem_contract Sample.calm 200 "key123"
                (redeemed 300 "key123" Sample.start)) as (H4 & _).
  specialize (H1 eq_refl). specialize (H3 eq_refl). specialize (H4 eq_refl).
  split; [exact H1|]. split; [|split; [exact H3 | exact H4]].
  destruct H2 as (Hw & _ & _ & Hu & _).
  - exists AUTH_SUCCESS. by rewrite H1.
  - rewrite H1 in Hu. apply Hu. vm_compute. eauto.
Defined.

(** ** Concurrent redemption: at most one caller wins *)

Module RedeemProofs.
Import Redeem.














(** A caller alone, with no statement failing, ends as the sequential
    function does. *)
Lemma solo_run_agrees (e : env) (uid : Z) (auth_key : string) (w : world) :
  env_tx_fault e = None →
  let cfg := schedule auth_key (replicate 4 (0%nat, false))
               (initial (db w) [uid]) in
  returned cfg 0 (authorize_user_with_key e uid auth_key w).1
  ∧ committed cfg = db (authorize_user_with_key e uid auth_key w).2.
Proof.
  intros Hf. rewrite (authorize_no_fault _ _ _ _ Hf).
  unfold returned. cbn [replicate schedule].
  destruct (auth_keys (db w) !! auth_key) as [k|] eqn:Hk;
    [destruct (k_is_used k) eqn:Hu|];
    repeat (unfold fire at 1; simpl; rewrite ?Hk, ?Hu; simpl); done.
Qed.


End RedeemProofs.

(** ** Running handlers *)

Ltac unfold_handlers :=
  cbv [require_authorization registered
       cmd_start cmd_auth handle_auth_button handle_logout
       handle_process_file handle_list_files handle_file_type_choice
       handle_delete_file handle_document_upload handle_photo_upload
       handle_wrong_document_input handle_wrong_photo_input
       handle_text_instead_of_callback cancel_upload_command
       with_command with_file_type with_file_id
       _save_uploaded_file _delete_file_from_disk
       add_file_record insert_storage delete_file_record delete_returning_id
       get_file_record get_user_files add_user
       set_user_authorization_status log_user_action insert_log get_user
       answer reply bot_send_message query_answer query_message_edit_text
       set_state clear_state get_state write_file unlink is_file
       mbind M_bind mret M_ret raise try_except when get_db put_db modify_db
       emit exec] in *.

Lemma authorized_in_row (w : world) (uid : Z) :
  authorized_in w uid = true →
  ∃ r, users (db w) !! uid = Some r ∧ u_is_authorized r = true.
Proof.
  unfold authorized_in, is_authorized.
  destruct (users (db w) !! uid) as [r|]; [|done]. by exists r.
Qed.

(** *** Where the router sends uploads *)

Lemma route_document (e : env) (m : Message) (w : world) :
  plain_upload m →
  state_of w (uid_of m) = Some awaiting_document →
  has_document m = true →
  dispatch e (EvMessage m) w
    = exec (require_authorization (handle_document_upload e) m) w.
Proof.
  intros (Hs & Ha & Ht) Hst Hd.
  unfold dispatch, dispatch_with, exec, find_route, current_state,
    message_routes, state_of, uid_of in *.
  simpl. rewrite Hs, Ha, Hst. unfold text_is. rewrite Ht, Hd. by simpl.
Qed.


Lemma has_photo_last (m : Message) :
  has_photo m = true → ∃ p, List.last (Some <$> photo m) None = Some p.
Proof.
  unfold has_photo. destruct (photo m) as [|p l]; [done|]. intros _.
  revert p. induction l as [|q l IH]; intros p; [by exists p|].
  destruct (IH q) as [x Hx]. exists x. exact Hx.
Qed.

(** *** [handle_document_upload], behind its decorator, for an authorized
    sender *)

Section DocumentUpload.
Variables (e : env) (m : Message) (doc : Document) (w : world) (r : user_row).
Hypothesis Hrow : users (db w) !! uid_of m = Some r.
Hypothesis Hauth : u_is_authorized r = true.
Hypothesis Hdoc : document m = Some doc.

Ltac start_document :=
  unfold_handlers; simpl;
  change (user_id (from_user m)) with (uid_of m);
  rewrite Hrow; simpl; rewrite Hauth, Hdoc;
  change (or_else (file_name doc) "unknown_document") with (document_name doc);
  change (Str.lower (Path.suffix (document_name doc)))
    with (document_extension doc).

Lemma document_rejected :
  allowed_extension (document_extension doc) = false →
  exec (require_authorization (handle_document_upload e) m) w
  = {| db := logged e (uid_of m)
            ("User " +:+ pretty (uid_of m)
                +:+ " sent wrong input while awaiting document. Invalid format ("
                +:+ document_extension doc +:+ ").") (db w);
       fsm := fsm w; disk := disk w;
       outbox := (outbox w
                 ++ [replied m (INVALID_FORMAT (document_extension doc))])%list |}.
Proof. intros Hx. start_document. rewrite Hx. simpl. by rewrite Hrow. Qed.

Lemma document_not_saved :
  allowed_extension (document_extension doc) = true →
  env_mkdir_fails e = true ∨ env_download_fails e = true →
  exec (require_authorization (handle_document_upload e) m) w
  = {| db := logged e (uid_of m)
            ("User " +:+ pretty (uid_of m)
                +:+ " sent wrong input while awaiting document. Could not save file.") (db w);
       fsm := fsm w; disk := disk w;
       outbox := (outbox w ++ [replied m DOCUMENT_NOT_SAVED])%list |}.
Proof.
  intros Hx Hf. start_document. rewrite Hx.
  destruct Hf as [Hf|Hf]; rewrite Hf; simpl; [|destruct (env_mkdir_fails e)];
    simpl; by rewrite Hrow.
Qed.

Lemma document_insert_raises :
  allowed_extension (document_extension doc) = true →
  env_mkdir_fails e = false → env_download_fails e = false →
  env_insert_fails e = true →
  exec (require_authorization (handle_document_upload e) m) w
  = {| db := logged e (uid_of m)
            ("User " +:+ pretty (uid_of m) +:+ " failed to save document '"
                +:+ document_name doc +:+ "' to database.") (db w);
       fsm := delete (uid_of m) (fsm w);
       disk := {[document_path (uid_of m) doc]} ∪ disk w;
       outbox := (outbox w ++ [replied m DOCUMENT_DB_ERROR])%list |}.
Proof.
  intros Hx H1 H2 H3. start_document. rewrite Hx, H1, H2, H3. simpl.
  by rewrite Hrow.
Qed.

Lemma document_stored :
  allowed_extension (document_extension doc) = true →
  env_mkdir_fails e = false → env_download_fails e = false →
  env_insert_fails e = false →
  exec (require_authorization (handle_document_upload e) m) w
  = {| db := logged e (uid_of m)
            ("User " +:+ pretty (uid_of m)
                +:+ " successfully uploaded document '"
                +:+ document_name doc +:+ "'")
          (stored (new_row e w (uid_of m) (document_path (uid_of m) doc)
                     (document_name doc) "document") (db w));
       fsm := delete (uid_of m) (fsm w);
       disk := {[document_path (uid_of m) doc]} ∪ disk w;
       outbox := (outbox w
                 ++ [send_message (chat_id m) None
                       (DOCUMENT_UPLOADED (document_name doc))
                       (Some main_menu_authorized)])%list |}.
Proof.
  intros Hx H1 H2 H3. start_document. rewrite Hx, H1, H2, H3. simpl.
  rewrite Hrow. simpl. by rewrite Hrow.
Qed.

End DocumentUpload.

(** *** [handle_photo_upload], behind its decorator, for an authorized
    sender *)

Section PhotoUpload.
Variables (e : env) (m : Message) (p : PhotoSize) (w : world) (r : user_row).
Hypothesis Hrow : users (db w) !! uid_of m = Some r.
Hypothesis Hauth : u_is_authorized r = true.
Hypothesis Hphoto : largest_photo m = Some p.

Ltac start_photo :=
  unfold_handlers; simpl;
  change (user_id (from_user m)) with (uid_of m);
  rewrite Hrow; simpl; rewrite Hauth;
  change (List.last (Some <$> photo m) None) with (largest_photo m);
  rewrite Hphoto;
  change ("photo_" +:+ photo_file_unique_id p +:+ "_" +:+ env_timestamp e
            +:+ ".jpg") with (photo_name e p).

Lemma photo_not_saved :
  env_mkdir_fails e = true ∨ env_download_fails e = true →
  exec (require_authorization (handle_photo_upload e) m) w
  = {| db := logged e (uid_of m)
               (("User " +:+ pretty (uid_of m)
                   +:+ " attempted to upload photo '" +:+ photo_name e p +:+ "'")
                  +:+ " - failed: could not save photo.") (db w);
       fsm := fsm w; disk := disk w;
       outbox := (outbox w ++ [replied m PHOTO_NOT_SAVED])%list |}.
Proof.
  intros Hf. start_photo.
  destruct Hf as [Hf|Hf]; rewrite Hf; simpl; [|destruct (env_mkdir_fails e)];
    simpl; by rewrite Hrow.
Qed.

Lemma photo_insert_raises :
  env_mkdir_fails e = false → env_download_fails e = false →
  env_insert_fails e = true →
  exec (require_authorization (handle_photo_upload e) m) w
  = {| db := logged e (uid_of m)
               (("User " +:+ pretty (uid_of m)
                   +:+ " attempted to upload photo '" +:+ photo_name e p +:+ "'")
                  +:+ " - failed: database error saving record.") (db w);
       fsm := delete (uid_of m) (fsm w);
       disk := {[upload_path (uid_of m) (photo_name e p)]} ∪ disk w;
       outbox := (outbox w ++ [replied m PHOTO_DB_ERROR])%list |}.
Proof.
  intros H1 H2 H3. start_photo. rewrite H1, H2, H3. simpl. by rewrite Hrow.
Qed.

Lemma photo_stored :
  env_mkdir_fails e = false → env_download_fails e = false →
  env_insert_fails e = false →
  exec (require_authorization (handle_photo_upload e) m) w
  = {| db := logged e (uid_of m)
               (("User " +:+ pretty (uid_of m)
                   +:+ " attempted to upload photo '" +:+ photo_name e p +:+ "'")
                  +:+ " - successful.")
               (stored (new_row e w (uid_of m)
                          (upload_path (uid_of m) (photo_name e p))
                          (photo_name e p) "photo") (db w));
       fsm := delete (uid_of m) (fsm w);
       disk := {[upload_path (uid_of m) (photo_name e p)]} ∪ disk w;
       outbox := (outbox w
                  ++ [send_message (chat_id m) None PHOTO_UPLOADED
                        (Some main_menu_authorized)])%list |}.
Proof.
  intros H1 H2 H3. start_photo. rewrite H1, H2, H3. simpl.
  rewrite Hrow. simpl. by rewrite Hrow.
Qed.

End PhotoUpload.

Lemma has_photo_largest (m : Message) :
  has_photo m = true → ∃ p, largest_photo m = Some p.
Proof. apply has_photo_last. Qed.

(** *** Strings in replies *)

Lemma contains_app_r (x a b : string) :
  Str.contains x b = true → Str.contains x (a +:+ b) = true.
Proof.
  intros Hb. induction a as [|c a IH]; [done|].
  change (String c a +:+ b) with (String c (a +:+ b)).
  cbn [Str.contains]. rewrite IH. apply orb_true_r.
Qed.

Lemma invalid_format_lists_allowed (file_extension x : string) :
  x ∈ ALLOWED_DOC_EXTENSIONS →
  Str.contains x (INVALID_FORMAT file_extension) = true.
Proof.
  intros Hx. unfold INVALID_FORMAT.
  apply contains_app_r, contains_app_r.
  unfold ALLOWED_DOC_EXTENSIONS in Hx.
  repeat (apply elem_of_cons in Hx as [->|Hx]; [by vm_compute|]).
  by apply elem_of_nil in Hx.
Qed.

(** ** Uploads: validation and failures *)

(** C8. A document whose extension is not in the allow-list is turned away
    before anything else happens: the FSM storage is as it was (the session
    stays in [awaiting_document]), no blob is written, no row is added to
    [storage], and the reply lists every allowed extension. *)
Theorem rejected_extension_leaves_session (e : env) (m : Message)
  (doc : Document) (w : world) :
  authorized_in w (uid_of m) = true →
  plain_upload m →
  state_of w (uid_of m) = Some awaiting_document →
  document m = Some doc →
  allowed_extension (document_extension doc) = false →
  let w' := dispatch e (EvMessage m) w in
  fsm w' = fsm w
  ∧ state_of w' (uid_of m) = Some awaiting_document
  ∧ disk w' = disk w
  ∧ storage (db w') = storage (db w)
  ∧ outbox w'
    = (outbox w ++ [replied m (INVALID_FORMAT (document_extension doc))])%list
  ∧ ∀ x, x ∈ ALLOWED_DOC_EXTENSIONS →
         Str.contains x (INVALID_FORMAT (document_extension doc)) = true.
Proof.
  intros (r & Hrow & Hauth)%authorized_in_row Hplain Hst Hdoc Hx w'.
  assert (Hd : has_document m = true) by (unfold has_document; by rewrite Hdoc).
  unfold w'. rewrite (route_document e m w Hplain Hst Hd).
  rewrite (document_rejected e m doc w r Hrow Hauth Hdoc Hx).
  unfold state_of in *. simpl. repeat split; try done.
  apply invalid_format_lists_allowed.
Qed.

Lemma rejected_extension_leaves_session_witness :
  let m := Sample.document_message Sample.alice (Some "notes.txt") in
  let w := Sample.in_session 100 awaiting_document in
  let w' := dispatch Sample.calm (EvMessage m) w in
  state_of w' 100 = Some awaiting_document
  ∧ disk w' = disk w
  ∧ storage (db w') = storage (db w)
  ∧ outbox w' = [replied m (INVALID_FORMAT ".txt")].
Proof.
  intros m w w'.
  destruct (rejected_extension_leaves_session Sample.calm m
              {| doc_file_id := "BQACAgIAAx"; doc_file_unique_id := "AgADcw";
                 file_name := Some "notes.txt" |} w)
    as (_ & Hs & Hd & Hst & Ho & _); try by vm_compute.
Defined.




(** ** The ledger insert and the foreign key *)

(** A foreign-key violation does not leave [add_file_record] as an
    exception: only the sequence has moved. *)
Lemma add_file_record_swallows_violation (e : env) (uid : Z)
  (file_path original_filename file_type : string) (w : world) :
  env_insert_fails e = false →
  users (db w) !! uid = None →
  add_file_record e uid file_path original_filename file_type w
  = (Ok (), {| db := with_storage_id_seq (storage_id_seq (db w) + 1) (db w);
               fsm := fsm w; disk := disk w; outbox := outbox w |}).
Proof.
  intros He Hu. unfold_handlers. rewrite He. simpl. rewrite Hu. simpl.
  by rewrite andb_false_r.
Qed.

(** Any other failure of the insert is raised to the caller. *)
Lemma add_file_record_raises (e : env) (uid : Z)
  (file_path original_filename file_type : string) (w : world) :
  env_insert_fails e = true →
  add_file_record e uid file_path original_filename file_type w
  = (Raise PostgresError, w).
Proof. intros He. unfold_handlers. by rewrite He. Qed.

(** C4, where the code departs from it. Dave's row is gone from [users]
    when the insert runs: [add_file_record] returns normally, the handler
    answers that the document is uploaded, and the blob is on disk with no
    row in [storage]. *)
Lemma violation_reported_as_success :
  let m := Sample.document_message Sample.dave (Some "report.pdf") in
  let w := Sample.in_session 400 awaiting_document in
  let w' := exec (handle_document_upload Sample.calm m) w in
  users (db w) !! 400 = None
  ∧ (add_file_record Sample.calm 400 "temp/400/AgADcw.pdf" "report.pdf"
       "document" w).1 = Ok ()
  ∧ storage (db w') = storage (db w)
  ∧ "temp/400/AgADcw.pdf" ∈ disk w'
  ∧ outbox w' = [send_message 400 None (DOCUMENT_UPLOADED "report.pdf")
                   (Some main_menu_authorized)]
  ∧ state_of w' 400 = None.
Proof. by vm_compute. Qed.

(** ** Deleting a file *)



(** ** Listing files: [get_user_files] *)

#[global] Instance newer_first_trans : Transitive newer_first.
Proof. intros x y z. unfold newer_first. lia. Qed.

#[global] Instance newer_first_total : Total newer_first.
Proof. intros x y. unfold newer_first. lia. Qed.












(** ** The authorization gate: [require_authorization] *)

Lemma require_authorization_refuses {E} `{TelegramEvent E}
  (func : E → M unit) (ev : E) (w : world) :
  authorized_in w (user_id (event_user ev)) = false →
  require_authorization func ev w
  = (Ok (), {| db := db w; fsm := fsm w; disk := disk w;
               outbox := (outbox w ++ unauthorized_notice ev)%list |}).
Proof.
  intros Hu. unfold authorized_in in Hu.
  unfold require_authorization, unauthorized_notice, get_user,
    bot_send_message, query_answer.
  unfold_monad. simpl. rewrite Hu.
  destruct (truthy_int (event_chat_id ev)), (is_callback_query ev); simpl;
    rewrite <- ?app_assoc, ?app_nil_r; try done.
  by rewrite world_eta.
Qed.

Lemma require_authorization_admits {E} `{TelegramEvent E}
  (func : E → M unit) (ev : E) (w : world) :
  authorized_in w (user_id (event_user ev)) = true →
  require_authorization func ev w = func ev w.
Proof.
  intros Hu. unfold authorized_in in Hu.
  unfold require_authorization, get_user. unfold_monad. simpl. by rewrite Hu.
Qed.

Lemma find_route_elem {E} (routes : list (route E)) (ev : E)
  (st : option FileUpload) (r : route E) :
  find_route routes ev st = Some r → r ∈ routes ∧ r_filter r ev st = true.
Proof.
  unfold find_route. intros [Hin Hf]%find_some. split; [|done].
  by apply list_elem_of_In.
Qed.





(** ** What each handler does to sessions and the ledger *)

Ltac crunch :=
  unfold_handlers;
  unfold authorize_user_with_key, check_auth_key, mark_key_used,
    set_user_authorized_in_transaction in *;
  unfold_monad; simpl in *;
  repeat (case_match; simplify_eq/=; try done).

Lemma keeps_ret {X A} (proj : world → X) (a : A) : keeps proj (mret a).
Proof. by intros w. Qed.
















(** ** Upload sessions *)







(** ** Document names and the allow-list *)
















(** * Further properties of the handlers *)

(** ** [/cancel] *)

Lemma find_route_not_cancel (e : env) (m : Message) (st : option FileUpload)
  (r : route Message) :
  find_route (message_routes e) m st = Some r →
  r_name r ≠ "cancel_upload_command".
Proof.
  unfold find_route, message_routes, in_state. simpl.
  destruct st as [[]|]; simpl;
    rewrite ?bool_decide_eq_true_2 by done;
    rewrite ?bool_decide_eq_false_2 by done; simpl;
    repeat (case_match; simpl; try (by intros [= <-]));
    match goal with
    | H : _ && false = true |- _ => by rewrite andb_false_r in H
    end.
Qed.


(** ** What each handler writes to *)

Lemma same_part_refl (p : part) (w : world) : same_part p w w.
Proof. by destruct p. Qed.

Lemma same_part_trans (p : part) (w1 w2 w3 : world) :
  same_part p w1 w2 → same_part p w2 w3 → same_part p w1 w3.
Proof.
  destruct p; simpl; try congruence.
  intros [-> ->] [-> ->]. done.
Qed.

Lemma writes_mono {A} (ps ps' : list part) (m : M A) :
  writes_only ps m → forallb (λ p, bool_decide (p ∈ ps')) ps = true →
  writes_only ps' m.
Proof.
  intros Hm Hsub w p Hp. apply Hm. intros Hin. apply Hp.
  rewrite forallb_forall in Hsub. apply list_elem_of_In, Hsub in Hin.
  by apply bool_decide_eq_true in Hin.
Qed.

Lemma writes_ret {A} (ps : list part) (a : A) : writes_only ps (mret a).
Proof. intros w p _. apply same_part_refl. Qed.

Lemma writes_raise {A} (ps : list part) (x : exn) :
  writes_only ps (raise x : M A).
Proof. intros w p _. apply same_part_refl. Qed.

Lemma writes_bind {A B} (ps : list part) (m : M A) (f : A → M B) :
  writes_only ps m → (∀ a, writes_only ps (f a)) → writes_only ps (m ≫= f).
Proof.
  intros Hm Hf w p Hp. unfold mbind, M_bind.
  specialize (Hm w p Hp). destruct (m w) as [[a|x] w1]; simpl in *; [|done].
  eapply same_part_trans; [exact Hm|]. by apply Hf.
Qed.

Lemma writes_try_except {A} (ps : list part) (body : M A)
  (handler : exn → M A) :
  writes_only ps body → (∀ x, writes_only ps (handler x)) →
  writes_only ps (try_except body handler).
Proof.
  intros Hm Hf w p Hp. unfold try_except.
  specialize (Hm w p Hp). destruct (body w) as [[a|x] w1]; simpl in *; [done|].
  eapply same_part_trans; [exact Hm|]. by apply Hf.
Qed.

Lemma writes_when (ps : list part) (c : bool) (body : M unit) :
  writes_only ps body → writes_only ps (when c body).
Proof. intros Hb. destruct c; [done|apply writes_ret]. Qed.

Lemma writes_for_each {A} (ps : list part) (l : list A) (body : A → M unit) :
  (∀ x, writes_only ps (body x)) → writes_only ps (for_each l body).
Proof.
  intros Hb. induction l as [|x l IH]; [apply writes_ret|].
  simpl. apply writes_bind; [apply Hb|by intros _].
Qed.

Lemma writes_transaction {A} (ps : list part) (fails : bool) (body : M A) :
  writes_only ps body → writes_only ps (transaction fails body).
Proof.
  intros Hm w p Hp. unfold transaction. specialize (Hm w p Hp).
  destruct (body w) as [[a|x] w1]; simpl in *;
    [destruct fails; simpl; [|done]|]; destruct p; simpl in *; done.
Qed.

(** The calls the handlers are made of. *)

Ltac footprint_of_call :=
  let w := fresh "w" in
  let p := fresh "p" in
  let Hp := fresh "Hp" in
  intros w p Hp; destruct p;
  try (by destruct Hp; repeat constructor);
  clear Hp; crunch; done.

Lemma writes_emit (x : effect) : writes_only [Outbox] (emit x).
Proof. footprint_of_call. Qed.

Lemma writes_answer (m : Message) (body : string) (k : option keyboard) :
  writes_only [Outbox] (answer m body k).
Proof. footprint_of_call. Qed.

Lemma writes_reply (m : Message) (body : string) (k : option keyboard) :
  writes_only [Outbox] (reply m body k).
Proof. footprint_of_call. Qed.

Lemma writes_bot_send_message (chat : Z) (body : string)
  (k : option keyboard) :
  writes_only [Outbox] (bot_send_message chat body k).
Proof. footprint_of_call. Qed.

Lemma writes_query_answer (body : option string) (alert : bool) :
  writes_only [Outbox] (query_answer body alert).
Proof. footprint_of_call. Qed.

Lemma writes_query_message_edit_text (q : CallbackQuery) (body : string) :
  writes_only [Outbox] (query_message_edit_text q body).
Proof. footprint_of_call. Qed.

Lemma writes_get_user (uid : Z) : writes_only [] (get_user uid).
Proof. footprint_of_call. Qed.

Lemma writes_add_user (e : env) (uid : Z) (uname : option string) :
  writes_only [Users] (add_user e uid uname).
Proof. footprint_of_call. Qed.

Lemma writes_set_user_authorization_status (uid : Z) (b : bool) :
  writes_only [Users] (set_user_authorization_status uid b).
Proof. footprint_of_call. Qed.

Lemma writes_authorize_user_with_key (e : env) (uid : Z) (k : string) :
  writes_only [Users; Keys] (authorize_user_with_key e uid k).
Proof. footprint_of_call. Qed.

Lemma writes_log_user_action (e : env) (uid : option Z) (d : string) :
  writes_only [Logs] (log_user_action e uid d).
Proof. footprint_of_call. Qed.

Lemma writes_get_user_files (uid : Z) : writes_only [] (get_user_files uid).
Proof. footprint_of_call. Qed.

Lemma writes_get_file_record (i : Z) : writes_only [] (get_file_record i).
Proof. footprint_of_call. Qed.

Lemma writes_delete_file_record (i : Z) :
  writes_only [Ledger] (delete_file_record i).
Proof. footprint_of_call. Qed.

Lemma writes_add_file_record (e : env) (uid : Z) (path name kind : string) :
  writes_only [Ledger] (add_file_record e uid path name kind).
Proof. footprint_of_call. Qed.

Lemma writes_set_state (uid : Z) (s : FileUpload) :
  writes_only [Sessions] (set_state uid s).
Proof. footprint_of_call. Qed.

Lemma writes_clear_state (uid : Z) : writes_only [Sessions] (clear_state uid).
Proof. footprint_of_call. Qed.

Lemma writes_get_state (uid : Z) : writes_only [] (get_state uid).
Proof. footprint_of_call. Qed.

Lemma writes__save_uploaded_file (e : env) (fid : string) (uid : Z)
  (name : string) :
  writes_only [Disk] (_save_uploaded_file e fid uid name).
Proof. footprint_of_call. Qed.

Lemma writes__delete_file_from_disk (e : env) (path : string) :
  writes_only [Disk] (_delete_file_from_disk e path).
Proof. footprint_of_call. Qed.

Create HintDb footprint discriminated.

#[local] Hint Resolve writes_emit writes_answer writes_reply
  writes_bot_send_message writes_query_answer writes_query_message_edit_text
  writes_get_user writes_add_user writes_set_user_authorization_status
  writes_authorize_user_with_key writes_log_user_action writes_get_user_files
  writes_get_file_record writes_delete_file_record writes_add_file_record
  writes_set_state writes_clear_state writes_get_state
  writes__save_uploaded_file writes__delete_file_from_disk : footprint.

(** A handler writes what its calls write. *)
Ltac footprint :=
  cbv zeta;
  repeat first
    [ eapply writes_mono; [solve [auto with footprint]|reflexivity]
    | apply writes_ret
    | apply writes_raise
    | apply writes_bind; [|intros ?]
    | apply writes_try_except; [|intros ?]
    | apply writes_when
    | apply writes_for_each; intros ?
    | case_match ].

Lemma writes_cmd_start (e : env) (m : Message) :
  writes_only [Users; Logs; Outbox] (cmd_start e m).
Proof. unfold cmd_start. footprint. Qed.

Lemma writes_cmd_auth (e : env) (m : Message) (c : CommandObject) :
  writes_only [Users; Keys; Logs; Outbox] (cmd_auth e m c).
Proof. unfold cmd_auth. footprint. Qed.

Lemma writes_handle_auth_button (e : env) (m : Message) :
  writes_only [Logs; Outbox] (handle_auth_button e m).
Proof. unfold handle_auth_button. footprint. Qed.

Lemma writes_handle_logout (e : env) (m : Message) :
  writes_only [Users; Logs; Outbox] (handle_logout e m).
Proof. unfold handle_logout. footprint. Qed.

Lemma writes_handle_process_file (e : env) (m : Message) :
  writes_only [Sessions; Logs; Outbox] (handle_process_file e m).
Proof. unfold handle_process_file. footprint. Qed.

Lemma writes_handle_list_files (e : env) (m : Message) :
  writes_only [Logs; Outbox] (handle_list_files e m).
Proof. unfold handle_list_files. footprint. Qed.

Lemma writes_handle_file_type_choice (e : env) (q : CallbackQuery)
  (t : string) :
  writes_only [Sessions; Logs; Outbox] (handle_file_type_choice e q t).
Proof. unfold handle_file_type_choice. footprint. Qed.

Lemma writes_handle_delete_file (e : env) (q : CallbackQuery) (i : Z) :
  writes_only [Ledger; Disk; Logs; Outbox] (handle_delete_file e q i).
Proof. unfold handle_delete_file. footprint. Qed.

Lemma writes_handle_document_upload (e : env) (m : Message) :
  writes_only [Ledger; Disk; Sessions; Logs; Outbox]
    (handle_document_upload e m).
Proof. unfold handle_document_upload. footprint. Qed.

Lemma writes_handle_photo_upload (e : env) (m : Message) :
  writes_only [Ledger; Disk; Sessions; Logs; Outbox]
    (handle_photo_upload e m).
Proof. unfold handle_photo_upload. footprint. Qed.

Lemma writes_handle_wrong_document_input (e : env) (m : Message) :
  writes_only [Logs; Outbox] (handle_wrong_document_input e m).
Proof. unfold handle_wrong_document_input. footprint. Qed.

Lemma writes_handle_wrong_photo_input (e : env) (m : Message) :
  writes_only [Logs; Outbox] (handle_wrong_photo_input e m).
Proof. unfold handle_wrong_photo_input. footprint. Qed.

Lemma writes_handle_text_instead_of_callback (e : env) (m : Message) :
  writes_only [Logs; Outbox] (handle_text_instead_of_callback e m).
Proof. unfold handle_text_instead_of_callback. footprint. Qed.

Lemma writes_cancel_upload_command (e : env) (m : Message) :
  writes_only [Sessions; Logs; Outbox] (cancel_upload_command e m).
Proof. unfold cancel_upload_command. footprint. Qed.

Lemma writes_require_authorization {E} `{TelegramEvent E} (ps : list part)
  (func : E → M unit) (ev : E) :
  Outbox ∈ ps → writes_only ps (func ev) →
  writes_only ps (require_authorization func ev).
Proof.
  intros Ho Hf. unfold require_authorization. cbv zeta.
  apply writes_bind; [by eapply writes_mono; [apply writes_get_user|]|].
  intros r. destruct (is_authorized r); [done|].
  assert (Hsub : forallb (λ p, bool_decide (p ∈ ps)) [Outbox] = true).
  { simpl. by rewrite bool_decide_eq_true_2. }
  apply writes_bind; [|intros _]; apply writes_when;
    (eapply writes_mono; [|exact Hsub]); auto with footprint.
Qed.

Ltac footprint_of_route :=
  try (apply writes_require_authorization; [repeat constructor|]);
  first
    [ apply writes_cmd_start | apply writes_handle_auth_button
    | apply writes_handle_logout | apply writes_handle_process_file
    | apply writes_handle_list_files | apply writes_handle_document_upload
    | apply writes_handle_photo_upload
    | apply writes_handle_wrong_document_input
    | apply writes_handle_wrong_photo_input
    | apply writes_handle_text_instead_of_callback
    | apply writes_cancel_upload_command ].

Lemma writes_message_route (e : env) (r : route Message) (m : Message) :
  r ∈ message_routes e →
  ∃ ps, footprint_of (r_name r) = Some ps ∧ writes_only ps (registered r m).
Proof.
  intros Hr. unfold message_routes in Hr.
  repeat (apply elem_of_cons in Hr as [->|Hr]); [..|by apply elem_of_nil in Hr];
    (eexists; split; [reflexivity|]); unfold registered; simpl;
    try footprint_of_route.
  unfold with_command. destruct (msg_command m);
    [apply writes_cmd_auth|apply writes_ret].
Qed.

Lemma writes_callback_route (e : env) (r : route CallbackQuery)
  (q : CallbackQuery) :
  r ∈ callback_routes e →
  ∃ ps, footprint_of (r_name r) = Some ps ∧ writes_only ps (registered r q).
Proof.
  intros Hr. unfold callback_routes in Hr.
  repeat (apply elem_of_cons in Hr as [->|Hr]); [..|by apply elem_of_nil in Hr];
    (eexists; split; [reflexivity|]); unfold registered; simpl;
    (apply writes_require_authorization; [repeat constructor|]).
  - unfold with_file_type. destruct (cq_data q);
      first [apply writes_handle_file_type_choice|apply writes_ret].
  - unfold with_file_id. destruct (cq_data q);
      first [apply writes_handle_delete_file|apply writes_ret].
Qed.

Lemma writes_dispatch (e : env) (ev : event) (w : world) :
  match route_of e ev w with
  | Some (name, _) =>
      ∃ ps, footprint_of name = Some ps
            ∧ ∀ p, p ∉ ps → same_part p w (dispatch e ev w)
  | None => dispatch e ev w = w
  end.
Proof.
  destruct ev as [m|q]; unfold route_of, dispatch, dispatch_with, exec.
  - destruct (find_route (message_routes e) m (current_state m w))
      as [r|] eqn:Hfind; simpl; [|done].
    apply find_route_elem in Hfind as [Hr _].
    destruct (writes_message_route e r m Hr) as (ps & Hps & Hw).
    exists ps. split; [done|]. intros p Hp. by apply Hw.
  - destruct (find_route (callback_routes e) q (current_state q w))
      as [r|] eqn:Hfind; simpl; [|done].
    apply find_route_elem in Hfind as [Hr _].
    destruct (writes_callback_route e r q Hr) as (ps & Hps & Hw).
    exists ps. split; [done|]. intros p Hp. by apply Hw.
Qed.

(** X2. Every registered handler, with its authorization wrapper, leaves
    every part of the world outside its footprint as it found it, whether
    it returns or raises; an event no handler takes changes nothing. *)
Theorem handlers_write_within_footprint (e : env) (ev : event) (w : world) :
  match route_of e ev w with
  | Some (name, _) =>
      ∃ ps, footprint_of name = Some ps
            ∧ ∀ p, p ∉ ps → same_part p w (dispatch e ev w)
  | None => dispatch e ev w = w
  end.
Proof. apply writes_dispatch. Qed.
(** ** How [str(user_id)] shows up in the audit texts *)

Lemma every_char_app (P : ascii → bool) (a b : string) :
  every_char P (a +:+ b) = every_char P a && every_char P b.
Proof.
  induction a as [|c a IH]; [done|].
  change (String c a +:+ b) with (String c (a +:+ b)).
  cbn [every_char]. by rewrite IH, andb_assoc.
Qed.

Lemma every_char_impl (P Q : ascii → bool) (s : string) :
  (∀ c, P c = true → Q c = true) →
  every_char P s = true → every_char Q s = true.
Proof.
  intros HPQ. induction s as [|c s IH]; [done|]. cbn [every_char].
  intros [Hc Hs]%andb_true_iff. by rewrite (HPQ c Hc), IH.
Qed.

Lemma pretty_N_char_decimal (x : N) : decimal_char (pretty_N_char x) = true.
Proof. unfold pretty_N_char. by repeat case_match. Qed.

Lemma pretty_N_go_decimal (x : N) (s : string) :
  every_char decimal_char s = true →
  every_char decimal_char (pretty_N_go x s) = true.
Proof.
  revert s. induction (N.lt_wf_0 x) as [x _ IH]. intros s Hs.
  destruct (decide (x = 0)%N) as [->|Hx]; [by rewrite pretty_N_go_0|].
  rewrite pretty_N_go_step by lia. apply IH.
  - apply N.div_lt; lia.
  - cbn [every_char]. by rewrite pretty_N_char_decimal, Hs.
Qed.

Lemma pretty_N_decimal (x : N) : every_char decimal_char (pretty x) = true.
Proof.
  unfold pretty, pretty_N. case_decide; [done|]. by apply pretty_N_go_decimal.
Qed.

Lemma pretty_Z_decimal (z : Z) : every_char decimal_char (pretty z) = true.
Proof.
  destruct z as [|p|p]; [done|apply (pretty_N_decimal (N.pos p))|].
  change (pretty (Z.neg p)) with ("-" +:+ pretty (N.pos p)).
  rewrite every_char_app. by rewrite (pretty_N_decimal (N.pos p)).
Qed.

Lemma prefix_cons (a b : ascii) (n r : string) :
  String.prefix (String a n) (String b r)
  = Ascii.eqb a b && String.prefix n r.
Proof.
  cbn [String.prefix]. destruct (ascii_dec a b) as [->|Hne].
  - by rewrite Ascii.eqb_refl.
  - by apply Ascii.eqb_neq in Hne as ->.
Qed.

(** A needle that starts with a letter does not start inside a number. *)
Lemma contains_skip (c0 : ascii) (n a b : string) :
  every_char (λ c, negb (Ascii.eqb c0 c)) a = true →
  Str.contains (String c0 n) (a +:+ b) = Str.contains (String c0 n) b.
Proof.
  induction a as [|c a IH]; [done|]. cbn [every_char].
  intros [Hc Ha]%andb_true_iff.
  change (String c a +:+ b) with (String c (a +:+ b)).
  cbn [Str.contains]. rewrite prefix_cons, (IH Ha).
  apply negb_true_iff in Hc. by rewrite Hc.
Qed.

Lemma contains_skip_decimal (c0 : ascii) (n b : string) (z : Z) :
  decimal_char c0 = false →
  Str.contains (String c0 n) (pretty z +:+ b) = Str.contains (String c0 n) b.
Proof.
  intros Hc0. apply contains_skip.
  apply (every_char_impl decimal_char); [|apply pretty_Z_decimal].
  intros c Hc. apply negb_true_iff, Ascii.eqb_neq. intros <-. congruence.
Qed.

Lemma append_assoc (a b c : string) : (a +:+ b) +:+ c = a +:+ (b +:+ c).
Proof.
  induction a as [|x a IH]; [done|].
  change ((String x a +:+ b) +:+ c) with (String x ((a +:+ b) +:+ c)).
  by rewrite IH.
Qed.

Lemma append_cons (c : ascii) (a b : string) :
  String c a +:+ b = String c (a +:+ b).
Proof. done. Qed.

Lemma append_nil (b : string) : "" +:+ b = b.
Proof. done. Qed.

Ltac scan_text :=
  rewrite !append_assoc, !append_cons, !append_nil; cbn [Str.contains];
  rewrite ?prefix_cons; simpl (_ =? _)%char; cbn [andb orb];
  rewrite contains_skip_decimal by done.

Lemma start_text_new (z : Z) :
  Str.contains "registered"
    (("User " +:+ pretty z +:+ " used /start.") +:+ "New user registration.")
  = false
  ∧ Str.contains "failed"
      (("User " +:+ pretty z +:+ " used /start.") +:+ "New user registration.")
    = false.
Proof. split; scan_text; by vm_compute. Qed.
(** ** Registration, redemption and logout *)

Lemma dispatch_start (e : env) (m : Message) (w : world) :
  is_command "start" m = true →
  dispatch e (EvMessage m) w = (cmd_start e m w).2.
Proof.
  intros Hc. unfold dispatch, dispatch_with, exec, find_route, message_routes.
  simpl. by rewrite Hc.
Qed.

Lemma is_command_eq (name : string) (m : Message) (c : CommandObject) :
  msg_command m = Some c → is_command name m = String.eqb (command c) name.
Proof. intros Hc. unfold is_command. by rewrite Hc. Qed.

Lemma dispatch_auth (e : env) (m : Message) (c : CommandObject) (w : world) :
  msg_command m = Some c → command c = "auth" →
  dispatch e (EvMessage m) w = (cmd_auth e m c w).2.
Proof.
  intros Hc Hn. unfold dispatch, dispatch_with, exec, find_route, message_routes.
  simpl. rewrite !(is_command_eq _ m c Hc), Hn. simpl.
  unfold registered, with_command. simpl. by rewrite Hc.
Qed.

Lemma cmd_start_run (e : env) (m : Message) (w : world) :
  ∃ body,
    cmd_start e m w =
      (Ok (),
       match users (db w) !! uid_of m with
       | Some r =>
           {| db := db w; fsm := fsm w; disk := disk w;
              outbox := (outbox w ++ [answered m body
                           (Some (menu_for (u_is_authorized r)))])%list |}
       | None =>
           {| db := logged e (uid_of m)
                      (("User " +:+ pretty (uid_of m) +:+ " used /start.")
                         +:+ "New user registration.")
                      (logged e (uid_of m)
                         ("User " +:+ pretty (uid_of m) +:+ " registered.")
                         (with_users (insert (uid_of m) (registration e m))
                            (db w)));
              fsm := fsm w; disk := disk w;
              outbox := (outbox w ++ [answered m body
                           (Some main_menu_unauthorized)])%list |}
       end).
Proof.
  pose proof (start_text_new (uid_of m)) as [Hnew1 Hnew2].
  pose proof (contains_app_r "registered"
                ("User " +:+ pretty (uid_of m) +:+ " used /start.")
                " Already registered and authorized." eq_refl) as Hold1.
  pose proof (contains_app_r "registered"
                ("User " +:+ pretty (uid_of m) +:+ " used /start.")
                " Already registered, but not authorized." eq_refl) as Hold2.
  unfold answered, registration, menu_for, logged.
  unfold cmd_start. cbv zeta. unfold_handlers.
  destruct (users (db w) !! uid_of m) as [r|] eqn:Hrow.
  - destruct (u_is_authorized r); eexists; rewrite ?Hold1, ?Hold2; done.
  - assert (Hfk : ∀ d, is_Some (users (with_users
                         (insert (uid_of m) (registration e m)) d) !! uid_of m)).
    { intros d. cbn [users with_users]. rewrite lookup_insert_eq. by eexists. }
    unfold registration in Hfk.
    eexists. unfold_handlers. rewrite ?Hrow. unfold_handlers.
    rewrite bool_decide_eq_true_2 by apply Hfk. unfold_handlers.
    rewrite Hnew1, Hnew2. cbv [negb andb]. unfold_handlers.
    rewrite bool_decide_eq_true_2 by apply Hfk. done.
Qed.

Lemma cmd_auth_run (e : env) (m : Message) (c : CommandObject) (w : world) :
  let w' := (cmd_auth e m c w).2 in
  ∃ body markup,
    outbox w' = (outbox w ++ [answered m body markup])%list
    ∧ match users (db w) !! uid_of m with
      | None =>
          credentials w' = credentials w
          ∧ markup = Some main_menu_unauthorized
      | Some r =>
          if u_is_authorized r then
            credentials w' = credentials w
            ∧ markup = Some main_menu_authorized
          else if negb (truthy_str (args c)) then
            credentials w' = credentials w ∧ markup = None
          else
            let k := default "" (args c) in
            (credentials w' = credentials (redeemed (uid_of m) k w)
             ∧ k_is_used <$> auth_keys (db w) !! k = Some false
             ∧ body = "Вітаємо, " +:+ Str.of_opt (username (from_user m))
                        +:+ "! " +:+ AUTH_SUCCESS
             ∧ markup = Some main_menu_authorized)
            ∨ (credentials w' = credentials w
               ∧ markup ≠ Some main_menu_authorized
               ∧ (env_tx_fault e = None →
                  match auth_keys (db w) !! k with
                  | None => body = INVALID_KEY
                  | Some kr => k_is_used kr = true ∧ body = KEY_ALREADY_USED
                  end))
      end.
Proof.
  intros w'. pose proof (eq_refl w') as Hw'. unfold w' at 2 in Hw'.
  clearbody w'. unfold cmd_auth in Hw'. cbv zeta in Hw'.
  unfold get_user, get_db in Hw'. unfold mbind at 1 2, M_bind at 1 2 in Hw'.
  simpl in Hw'.
  destruct (users (db w) !! uid_of m) as [r|] eqn:Hrow.
  2:{ subst w'. unfold answered, credentials. clear. crunch; eauto. }
  destruct (u_is_authorized r) eqn:Hauth.
  { subst w'. unfold answered, credentials. clear. crunch; eauto. }
  destruct (args c) as [k|] eqn:Hargs; simpl.
  2:{ subst w'. unfold answered, credentials. clear. crunch; eauto. }
  destruct (Str.truthy k) eqn:Hk; simpl.
  2:{ subst w'. unfold answered, credentials. clear. crunch; eauto. }
  assert (Hlog : ∀ d body markup w1,
            let out := (log_user_action e (Some (uid_of m)) d
                          ≫= λ _, answer m body markup) w1 in
            out.1 = Ok ()
            ∧ outbox out.2 = (outbox w1 ++ [answered m body markup])%list
            ∧ credentials out.2 = credentials w1).
  { intros d body markup w1. unfold answered, credentials. clear. crunch; done. }
  assert (Hfail : ∀ d body w1,
            let out := (answer m body None
                          ≫= λ _, log_user_action e (Some (uid_of m)) d) w1 in
            outbox out.2 = (outbox w1 ++ [answered m body None])%list
            ∧ credentials out.2 = credentials w1).
  { intros d body w1. unfold answered, credentials. clear. crunch; done. }
  unfold try_except, mbind at 1, M_bind at 1 in Hw'.
  destruct (authorize_all_or_nothing e (uid_of m) k w) as [[Heq Hunused]|[Hne Hw]].
  - rewrite Heq in Hw'.
    match type of Hw' with
    | context [(log_user_action _ _ ?d ≫= λ _, answer _ ?b ?k0) ?w1] =>
        destruct (Hlog d b k0 w1) as (Hok & Ho & Hc);
        destruct ((log_user_action e (Some (uid_of m)) d
                     ≫= λ _, answer m b k0) w1) as [[[]|x] w2];
        [|done]; simpl in Ho, Hc, Hw'; subst w'; exists b, k0
    end.
    split; [exact Ho|]. left. by rewrite Hc.
  - destruct (authorize_user_with_key e (uid_of m) k w)
      as [[[[] msg]|x] w1] eqn:Hrun; simpl in Hne, Hw; subst w1.
    + by destruct (Hne msg).
    + match type of Hw' with
      | context [(log_user_action _ _ ?d ≫= λ _, answer _ ?b ?k0) ?w1] =>
          destruct (Hlog d b k0 w1) as (Hok & Ho & Hc);
          destruct ((log_user_action e (Some (uid_of m)) d
                       ≫= λ _, answer m b k0) w1) as [[[]|x] w2];
          [|done]; simpl in Ho, Hc, Hw'; subst w'; exists b, k0
      end.
      split; [exact Ho|]. right. split; [done|]. split; [done|].
      intros Hf. rewrite (authorize_no_fault _ _ _ _ Hf) in Hrun.
      destruct (auth_keys (db w) !! k) as [kr|]; [|by simplify_eq].
      destruct (k_is_used kr); by simplify_eq.
    + match type of Hw' with
      | context [(answer _ ?b None ≫= λ _, log_user_action _ _ ?d) ?w1] =>
          destruct (Hfail d b w1) as (Ho & Hc); exists b, None
      end.
      subst w'. split; [exact Ho|]. right. split; [exact Hc|]. split; [done|].
      intros Hf. rewrite (authorize_no_fault _ _ _ _ Hf) in Hrun.
      destruct (auth_keys (db w) !! k) as [kr|]; [|by simplify_eq].
      destruct (k_is_used kr); by simplify_eq.
Qed.



Lemma handle_logout_run (e : env) (m : Message) (w : world) :
  is_Some (users (db w) !! uid_of m) →
  handle_logout e m w =
    (Ok (),
     {| db := logged e (uid_of m)
                ("User " +:+ pretty (uid_of m) +:+ " logged out.")
                (with_users (alter (set_is_authorized false) (uid_of m)) (db w));
        fsm := fsm w; disk := disk w;
        outbox := (outbox w ++ [answered m "Ви успішно розлогінились."
                                  (Some main_menu_unauthorized)])%list |}).
Proof.
  intros [r Hr]. unfold handle_logout, answered, logged. cbv zeta.
  unfold_handlers. simpl.
  rewrite bool_decide_eq_true_2; [done|].
  rewrite lookup_alter_eq, Hr. by eexists.
Qed.

(** X3. [/start] from a sender without a row inserts an unauthorized row
    for them and writes two audit rows; from a registered sender it
    writes nothing to the tables, not even an audit row, and the menu sent
    follows the stored flag. Sessions and files are never touched. *)
Theorem start_registers_once (e : env) (m : Message) (w : world) :
  is_command "start" m = true →
  ∃ body,
    dispatch e (EvMessage m) w =
      match users (db w) !! uid_of m with
      | Some r =>
          {| db := db w; fsm := fsm w; disk := disk w;
             outbox := (outbox w ++ [answered m body
                          (Some (menu_for (u_is_authorized r)))])%list |}
      | None =>
          {| db := logged e (uid_of m)
                     (("User " +:+ pretty (uid_of m) +:+ " used /start.")
                        +:+ "New user registration.")
                     (logged e (uid_of m)
                        ("User " +:+ pretty (uid_of m) +:+ " registered.")
                        (with_users (insert (uid_of m) (registration e m))
                           (db w)));
             fsm := fsm w; disk := disk w;
             outbox := (outbox w ++ [answered m body
                          (Some main_menu_unauthorized)])%list |}
      end.
Proof.
  intros Hc. rewrite (dispatch_start e m w Hc).
  destruct (cmd_start_run e m w) as [body Hrun]. exists body.
  by rewrite Hrun.
Qed.

Lemma start_registers_once_witness :
  let w' := dispatch Sample.calm
              (EvMessage (command_message Sample.dave "start" None))
              Sample.start in
  users (db w') !! 400 = Some {| u_username := Some "dave";
                                 u_registered_at := 1000;
                                 u_is_authorized := false |}
  ∧ length (logs (db w')) = 2%nat
  ∧ length (logs (db (dispatch Sample.calm
              (EvMessage (command_message Sample.carol "start" None))
              Sample.start))) = 0%nat.
Proof.
  intros w'.
  destruct (start_registers_once Sample.calm
              (command_message Sample.dave "start" None) Sample.start eq_refl)
    as [body Hd].
  destruct (start_registers_once Sample.calm
              (command_message Sample.carol "start" None) Sample.start eq_refl)
    as [body' Hc].
  unfold w'. rewrite Hd, Hc. by vm_compute.
Defined.

(** X4. [/auth] answers with one message. It changes the user and key
    tables only for a registered, unauthorized sender who names a key
    whose row is unused: then both flags are set, as one write, and the
    authorized menu is sent. In every other case, a fault in the
    transaction included, both tables stay as they are and the authorized
    menu is sent only to a sender who already was authorized. *)
Theorem auth_command_outcomes (e : env) (m : Message) (c : CommandObject)
  (w : world) :
  msg_command m = Some c → command c = "auth" →
  let w' := dispatch e (EvMessage m) w in
  ∃ body markup,
    outbox w' = (outbox w ++ [answered m body markup])%list
    ∧ match users (db w) !! uid_of m with
      | None =>
          credentials w' = credentials w
          ∧ markup = Some main_menu_unauthorized
      | Some r =>
          if u_is_authorized r then
            credentials w' = credentials w
            ∧ markup = Some main_menu_authorized
          else if negb (truthy_str (args c)) then
            credentials w' = credentials w ∧ markup = None
          else
            let k := default "" (args c) in
            (credentials w' = credentials (redeemed (uid_of m) k w)
             ∧ k_is_used <$> auth_keys (db w) !! k = Some false
             ∧ body = "Вітаємо, " +:+ Str.of_opt (username (from_user m))
                        +:+ "! " +:+ AUTH_SUCCESS
             ∧ markup = Some main_menu_authorized)
            ∨ (credentials w' = credentials w
               ∧ markup ≠ Some main_menu_authorized
               ∧ (env_tx_fault e = None →
                  match auth_keys (db w) !! k with
                  | None => body = INVALID_KEY
                  | Some kr => k_is_used kr = true ∧ body = KEY_ALREADY_USED
                  end))
      end.
Proof.
  intros Hc Hn w'. unfold w'. rewrite (dispatch_auth e m c w Hc Hn).
  apply cmd_auth_run.
Qed.

Lemma auth_command_outcomes_witness :
  let m := command_message Sample.carol "auth" (Some "key123") in
  let w' := dispatch Sample.calm (EvMessage m) Sample.start in
  credentials w' = credentials (redeemed 300 "key123" Sample.start)
  ∧ authorized_in w' 300 = true
  ∧ credentials (dispatch Sample.calm (EvMessage m) w') = credentials w'.
Proof.
  intros m w'.
  destruct (auth_command_outcomes Sample.calm m _ Sample.start
              eq_refl eq_refl) as (body & markup & _ & H).
  change (users (db Sample.start) !! uid_of m)
    with (Some (Sample.row "carol" false)) in H.
  cbn [Sample.row u_is_authorized] in H.
  change (negb (truthy_str _)) with false in H. cbv iota zeta in H.
  destruct H as [(Hc & _)|(_ & _ & Hf)].
  - split; [exact Hc|]. by vm_compute.
  - specialize (Hf eq_refl). by vm_compute in Hf.
Defined.


(** ** The user and key tables over a run *)

Ltac not_listed :=
  let H := fresh in
  intros H; repeat (apply elem_of_cons in H as [?|H]; [done|]);
  by apply elem_of_nil in H.

Lemma writes_credentials {A} (ps : list part) (m : M A) (w : world) :
  writes_only ps m → Users ∉ ps → Keys ∉ ps →
  credentials (m w).2 = credentials w.
Proof.
  intros Hm Hu Hk. unfold credentials.
  by rewrite (Hm w Users Hu), (Hm w Keys Hk).
Qed.

Lemma message_route_credentials (e : env) (r : route Message) (m : Message)
  (w : world) :
  r ∈ message_routes e →
  r_filter r m (current_state m w) = true →
  credentials_step e (EvMessage m) w (exec (registered r m) w).
Proof.
  intros Hr Hf.
  destruct (writes_message_route e r m Hr) as (ps & Hps & Hw).
  unfold message_routes in Hr.
  repeat (apply elem_of_cons in Hr as [->|Hr]); [..|by apply elem_of_nil in Hr];
    simpl in Hf; vm_compute in Hps; injection Hps as <-;
    try (apply step_same; apply (writes_credentials _ _ _ Hw); not_listed).
  - unfold registered, exec. simpl.
    destruct (cmd_start_run e m w) as [body ->]. simpl.
    destruct (users (db w) !! uid_of m) as [r|] eqn:Hrow.
    + by apply step_same.
    + by apply (step_register _ _ _ _ m).
  - unfold registered, exec, with_command. simpl.
    unfold is_command in Hf.
    destruct (msg_command m) as [c|] eqn:Hc; [|done].
    apply String.eqb_eq in Hf.
    destruct (cmd_auth_run e m c w) as (body & markup & _ & Hrun).
    destruct (users (db w) !! uid_of m) as [r|] eqn:Hrow;
      [|apply step_same; by destruct Hrun].
    destruct (u_is_authorized r) eqn:Hauth;
      [apply step_same; by destruct Hrun|].
    destruct (args c) as [k|] eqn:Hargs; simpl in Hrun;
      [|apply step_same; by destruct Hrun].
    destruct (Str.truthy k); simpl in Hrun;
      [|apply step_same; by destruct Hrun].
    destruct Hrun as [(Hcred & Hk & _)|(Hcred & _)]; [|by apply step_same].
    destruct (auth_keys (db w) !! k) as [kr|] eqn:Hkr; [|done].
    simpl in Hk. apply (step_redeem _ _ _ _ m c k r kr); try done.
    by simplify_eq.
  - unfold registered, exec. simpl.
    destruct (authorized_in w (uid_of m)) eqn:Hu.
    + rewrite require_authorization_admits by exact Hu.
      destruct (authorized_in_row _ _ Hu) as (r & Hr & _).
      rewrite handle_logout_run by (by eexists).
      by apply (step_logout _ _ _ _ m).
    + rewrite require_authorization_refuses by exact Hu. by apply step_same.
Qed.

Lemma dispatch_credentials_step (e : env) (ev : event) (w : world) :
  credentials_step e ev w (dispatch e ev w).
Proof.
  destruct ev as [m|q]; unfold dispatch, dispatch_with, exec.
  - destruct (find_route (message_routes e) m (current_state m w))
      as [r|] eqn:Hfind; [|by apply step_same].
    apply find_route_elem in Hfind as [Hr Hf].
    by apply message_route_credentials.
  - destruct (find_route (callback_routes e) q (current_state q w))
      as [r|] eqn:Hfind; [|by apply step_same].
    apply find_route_elem in Hfind as [Hr _].
    destruct (writes_callback_route e r q Hr) as (ps & Hps & Hw).
    unfold callback_routes in Hr.
    repeat (apply elem_of_cons in Hr as [->|Hr]); [..|by apply elem_of_nil in Hr];
      vm_compute in Hps; injection Hps as <-;
      apply step_same; apply (writes_credentials _ _ _ Hw); not_listed.
Qed.

(** One key row across an event: it stays, or it was unused and is used. *)
Lemma dispatch_key_row (e : env) (ev : event) (w : world) (k : string) :
  match auth_keys (db w) !! k with
  | None => auth_keys (db (dispatch e ev w)) !! k = None
  | Some r =>
      auth_keys (db (dispatch e ev w)) !! k = Some r
      ∨ (k_is_used r = false
         ∧ auth_keys (db (dispatch e ev w)) !! k = Some (set_is_used r))
  end.
Proof.
  assert (Hsame : auth_keys (db (dispatch e ev w)) = auth_keys (db w) →
            match auth_keys (db w) !! k with
            | None => auth_keys (db (dispatch e ev w)) !! k = None
            | Some r =>
                auth_keys (db (dispatch e ev w)) !! k = Some r
                ∨ (k_is_used r = false
                   ∧ auth_keys (db (dispatch e ev w)) !! k
                     = Some (set_is_used r))
            end).
  { intros ->. destruct (auth_keys (db w) !! k); auto. }
  destruct (dispatch_credentials_step e ev w)
    as [Hc|m _ _ Hc|m c k' r kr _ _ _ _ _ _ Hkr Hunused Hc|m _ _ Hc];
    unfold credentials in Hc; injection Hc as Hu Hk; [by apply Hsame..| |by apply Hsame].
  rewrite Hk. destruct (decide (k = k')) as [->|Hne].
  - rewrite Hkr, lookup_alter_eq, Hkr. simpl. by right.
  - rewrite lookup_alter_ne by done.
    destruct (auth_keys (db w) !! k); auto.
Qed.

Lemma run_key_row (evs : list (env * event)) (w : world) (k : string) :
  match auth_keys (db w) !! k with
  | None => auth_keys (db (run evs w)) !! k = None
  | Some r =>
      auth_keys (db (run evs w)) !! k = Some r
      ∨ (k_is_used r = false
         ∧ auth_keys (db (run evs w)) !! k = Some (set_is_used r))
  end.
Proof.
  revert w. induction evs as [|[e ev] evs IH]; intros w; simpl.
  { destruct (auth_keys (db w) !! k); auto. }
  pose proof (dispatch_key_row e ev w k) as Hstep.
  specialize (IH (dispatch e ev w)).
  destruct (auth_keys (db w) !! k) as [r|].
  - destruct Hstep as [Hstep|[Hunused Hstep]]; rewrite Hstep in IH.
    + done.
    + right. split; [done|]. by destruct IH as [IH|[? IH]].
  - by rewrite Hstep in IH.
Qed.

(** X6. Over any run of events, a key row is never added or removed, a
    used key stays used, and the only change a row sees is from unused to
    used. *)
Theorem keys_only_flip_to_used (evs : list (env * event)) (w : world)
  (k : string) :
  match auth_keys (db w) !! k with
  | None => auth_keys (db (run evs w)) !! k = None
  | Some r =>
      auth_keys (db (run evs w)) !! k = Some r
      ∨ (k_is_used r = false
         ∧ auth_keys (db (run evs w)) !! k = Some (set_is_used r))
  end.
Proof. apply run_key_row. Qed.

Lemma dispatch_newly_authorized (e : env) (ev : event) (w : world) (u : Z) :
  authorized_in w u = false → authorized_in (dispatch e ev w) u = true →
  ∃ k r, auth_keys (db w) !! k = Some r ∧ k_is_used r = false
         ∧ auth_keys (db (dispatch e ev w)) !! k = Some (set_is_used r).
Proof.
  intros Hbefore Hafter. unfold authorized_in in *.
  destruct (dispatch_credentials_step e ev w)
    as [Hc|m _ Hrow Hc|m c k r kr _ _ _ _ _ _ Hkr Hunused Hc|m _ _ Hc];
    unfold credentials in Hc; injection Hc as Hu Hk; rewrite Hu in Hafter.
  - congruence.
  - destruct (decide (u = uid_of m)) as [->|Hne].
    + by rewrite lookup_insert_eq in Hafter.
    + rewrite lookup_insert_ne in Hafter by done. congruence.
  - exists k, kr. rewrite Hk, lookup_alter_eq, Hkr. done.
  - destruct (decide (u = uid_of m)) as [->|Hne].
    + rewrite lookup_alter_eq in Hafter.
      by destruct (users (db w) !! uid_of m).
    + rewrite lookup_alter_ne in Hafter by done. congruence.
Qed.

(** X7. A user who is authorized after a run and was not before it has
    cost a key: some key that was unused before the run is used after
    it. *)
Theorem authorization_costs_a_key (evs : list (env * event)) (w : world)
  (u : Z) :
  authorized_in w u = false → authorized_in (run evs w) u = true →
  ∃ k r, auth_keys (db w) !! k = Some r ∧ k_is_used r = false
         ∧ auth_keys (db (run evs w)) !! k = Some (set_is_used r).
Proof.
  revert w. induction evs as [|[e ev] evs IH]; intros w Hbefore Hafter;
    simpl in *; [congruence|].
  destruct (authorized_in (dispatch e ev w) u) eqn:Hmid.
  - destruct (dispatch_newly_authorized e ev w u Hbefore Hmid)
      as (k & r & Hk & Hunused & Hk').
    exists k, r. split; [done|]. split; [done|].
    pose proof (run_key_row evs (dispatch e ev w) k) as Hrest.
    rewrite Hk' in Hrest. by destruct Hrest as [?|[? _]].
  - destruct (IH _ Hmid Hafter) as (k & r & Hk & Hunused & Hk').
    exists k, r. split; [|done].
    pose proof (dispatch_key_row e ev w k) as Hstep.
    destruct (auth_keys (db w) !! k) as [r0|]; [|congruence].
    destruct Hstep as [Hstep|[_ Hstep]]; [congruence|].
    rewrite Hstep in Hk. injection Hk as <-. done.
Qed.

Lemma authorization_costs_a_key_witness :
  let m := command_message Sample.carol "auth" (Some "key123") in
  ∃ k r, auth_keys (db Sample.start) !! k = Some r ∧ k_is_used r = false
         ∧ auth_keys (db (run [(Sample.calm, EvMessage m)] Sample.start)) !! k
           = Some (set_is_used r).
Proof.
  intros m.
  apply (authorization_costs_a_key [(Sample.calm, EvMessage m)] Sample.start
           300); by vm_compute.
Defined.

Lemma elem_of_authorized_users (w : world) (u : Z) :
  u ∈ authorized_users w ↔ authorized_in w u = true.
Proof.
  unfold authorized_users, authorized_in, is_authorized.
  rewrite elem_of_dom. unfold is_Some.
  setoid_rewrite map_lookup_filter_Some. simpl.
  destruct (users (db w) !! u) as [r|]; split;
    [by intros (x & [= <-] & ?)|by exists r|by intros (x & [=] & _)|done].
Qed.

Lemma elem_of_unused_keys (w : world) (k : string) :
  k ∈ unused_keys w
  ↔ ∃ r, auth_keys (db w) !! k = Some r ∧ k_is_used r = false.
Proof.
  unfold unused_keys. rewrite elem_of_dom. unfold is_Some.
  by setoid_rewrite map_lookup_filter_Some.
Qed.

Lemma dispatch_supply (e : env) (ev : event) (w : world) :
  (size (authorized_users (dispatch e ev w))
   + size (unused_keys (dispatch e ev w))
   ≤ size (authorized_users w) + size (unused_keys w))%nat.
Proof.
  set (w' := dispatch e ev w).
  assert (Hsub : authorized_users w' ⊆ authorized_users w →
                 unused_keys w' ⊆ unused_keys w →
                 (size (authorized_users w') + size (unused_keys w')
                  ≤ size (authorized_users w) + size (unused_keys w))%nat).
  { intros H1%subseteq_size H2%subseteq_size. lia. }
  destruct (dispatch_credentials_step e ev w)
    as [Hc|m _ Hrow Hc|m c k r kr _ _ _ _ Hrow _ Hkr Hunused Hc|m _ _ Hc];
    fold w' in Hc; unfold credentials in Hc; injection Hc as Hu Hk.
  - apply Hsub.
    + intros u. rewrite !elem_of_authorized_users. unfold authorized_in.
      by rewrite Hu.
    + intros k. rewrite !elem_of_unused_keys. by rewrite Hk.
  - apply Hsub.
    + intros u. rewrite !elem_of_authorized_users. unfold authorized_in.
      rewrite Hu. destruct (decide (u = uid_of m)) as [->|Hne].
      * by rewrite lookup_insert_eq.
      * by rewrite lookup_insert_ne.
    + intros k. rewrite !elem_of_unused_keys. by rewrite Hk.
  - assert (H1 : authorized_users w' ⊆ {[uid_of m]} ∪ authorized_users w).
    { intros u. rewrite elem_of_union, elem_of_singleton.
      rewrite !elem_of_authorized_users. unfold authorized_in.
      rewrite Hu. destruct (decide (u = uid_of m)) as [->|Hne]; [by left|].
      rewrite lookup_alter_ne by done. by right. }
    assert (H2 : unused_keys w' ⊆ unused_keys w ∖ {[k]}).
    { intros k0. rewrite elem_of_difference, elem_of_singleton.
      rewrite !elem_of_unused_keys. rewrite Hk.
      destruct (decide (k0 = k)) as [->|Hne].
      - rewrite lookup_alter_eq, Hkr. simpl. by intros (? & [= <-] & ?).
      - rewrite lookup_alter_ne by done. by intros. }
    assert (H3 : {[k]} ⊆ unused_keys w).
    { intros k0 ->%elem_of_singleton. apply elem_of_unused_keys. by exists kr. }
    apply subseteq_size in H1, H2.
    rewrite size_union_alt, size_singleton in H1.
    rewrite size_difference, size_singleton in H2 by done.
    assert (size (authorized_users w ∖ {[uid_of m]})
            ≤ size (authorized_users w))%nat
      by (apply subseteq_size; intros ? [? _]%elem_of_difference; done).
    assert (0 < size (unused_keys w))%nat.
    { apply subseteq_size in H3. rewrite size_singleton in H3. lia. }
    lia.
  - apply Hsub.
    + intros u. rewrite !elem_of_authorized_users. unfold authorized_in.
      rewrite Hu. destruct (decide (u = uid_of m)) as [->|Hne].
      * rewrite lookup_alter_eq. by destruct (users (db w) !! uid_of m).
      * by rewrite lookup_alter_ne.
    + intros k. rewrite !elem_of_unused_keys. by rewrite Hk.
Qed.

Lemma run_supply (evs : list (env * event)) (w : world) :
  (size (authorized_users (run evs w)) + size (unused_keys (run evs w))
   ≤ size (authorized_users w) + size (unused_keys w))%nat.
Proof.
  revert w. induction evs as [|[e ev] evs IH]; intros w; simpl; [done|].
  pose proof (dispatch_supply e ev w). specialize (IH (dispatch e ev w)).
  lia.
Qed.

(** X8. Over any run, the number of authorized users plus the number of
    unused keys never grows: the bot ends with at most as many authorized
    users as it started with plus the keys that were left to redeem. *)
Theorem authorized_bounded_by_keys (evs : list (env * event)) (w : world) :
  (size (authorized_users (run evs w)) + size (unused_keys (run evs w))
   ≤ size (authorized_users w) + size (unused_keys w))%nat
  ∧ (size (authorized_users (run evs w))
     ≤ size (authorized_users w) + size (unused_keys w))%nat.
Proof. pose proof (run_supply evs w). split; [done|lia]. Qed.
(** ** Deleting a file *)

Lemma find_filter_other (i : Z) (l : list file_row) :
  List.find (λ r, bool_decide (f_id r = i)) (filter (λ r, f_id r ≠ i) l) = None.
Proof.
  induction l as [|x l IH]; [done|].
  rewrite filter_cons. case_decide as Hx; [|done].
  simpl. by rewrite bool_decide_eq_false_2.
Qed.

Lemma filter_find_none (i : Z) (l : list file_row) :
  List.find (λ r, bool_decide (f_id r = i)) l = None →
  filter (λ r, f_id r ≠ i) l = l.
Proof.
  induction l as [|x l IH]; [done|]. simpl.
  case_bool_decide as Hx; [done|]. intros Hl.
  rewrite filter_cons_True by done. by rewrite IH.
Qed.

Lemma file_record_id (w : world) (i : Z) (row : file_row) :
  file_record w i = Some row → f_id row = i ∧ row ∈ storage (db w).
Proof.
  unfold file_record. intros [Hin Hi]%find_some.
  split; [by apply bool_decide_eq_true in Hi|by apply list_elem_of_In].
Qed.

Lemma difference_absent (p : string) (X : gset string) :
  p ∉ X → X ∖ {[p]} = X.
Proof.
  intros Hp. apply set_eq. intros x.
  rewrite elem_of_difference, elem_of_singleton. split; [by intros [? _]|].
  intros Hx. split; [done|]. by intros ->.
Qed.

Ltac outbox_suffix :=
  eexists; split; [rewrite <- ?app_assoc; try reflexivity; by rewrite app_nil_r|];
  simpl.

Ltac listed_iff :=
  let H := fresh in
  split;
  [ intros H; first [done | exfalso; revert H; not_listed]
  | intros H; first [done | by destruct H | repeat constructor] ].

Lemma handle_delete_file_run (e : env) (q : CallbackQuery) (i : Z)
  (w : world) :
  let w' := (handle_delete_file e q i w).2 in
  storage (db w') = filter (λ r, f_id r ≠ i) (storage (db w))
  ∧ storage_id_seq (db w') = storage_id_seq (db w)
  ∧ disk w' =
      match file_record w i with
      | Some row =>
          if path_returned row && negb (env_unlink_fails e)
          then disk w ∖ {[f_file_path row]} else disk w
      | None => disk w
      end
  ∧ ∃ l, outbox w' = (outbox w ++ l)%list
         ∧ (PERMISSION_DENIED ∉ l)
         ∧ (FILE_DELETED ∈ l ↔ (path_returned <$> file_record w i) = Some true)
         ∧ (FILE_NOT_FOUND ∈ l ↔ (path_returned <$> file_record w i) ≠ Some true).
Proof.
  intros w'. unfold w'. clear w'.
  pose proof (find_filter_other i (storage (db w))) as Hnone.
  pose proof (filter_find_none i (storage (db w))) as Hid.
  pose proof (file_record_id w i) as Hrow.
  unfold PERMISSION_DENIED, FILE_DELETED, FILE_NOT_FOUND, path_returned,
    file_record in *.
  unfold_handlers.
  destruct (List.find (λ r, bool_decide (f_id r = i)) (storage (db w)))
    as [row|] eqn:Hfind.
  - rewrite ?Hfind. clear Hrow Hid. cbn [fmap option_fmap option_map truthy_int].
    destruct (Str.truthy (f_file_path row)) eqn:Hpath;
      destruct (bool_decide (f_id row ≠ 0)) eqn:Hzero;
      cbn [truthy_str default andb negb]; rewrite ?Hpath;
      simpl; repeat (case_match; simplify_eq/=; try done);
      try congruence;
      try match goal with
          | H : negb (Str.truthy _) = true |- _ => by rewrite Hpath in H
          end;
      (split; [done|]; split; [done|]);
      (split; [first [done|symmetry; apply difference_absent;
                          by eapply bool_decide_eq_false_1]|]);
      outbox_suffix; (split; [not_listed|]); split; listed_iff.
  - rewrite ?Hfind. rewrite Hid by done. clear Hrow Hid Hnone.
    simpl; repeat (case_match; simplify_eq/=; try done);
      (split; [done|]; split; [done|]; split; [done|]);
      outbox_suffix; (split; [not_listed|]); split; listed_iff.
Qed.

Lemma dispatch_delete (e : env) (q : CallbackQuery) (i : Z) (w : world) :
  cq_data q = DeleteFileCallbackData i →
  dispatch e (EvCallback q) w
  = exec (require_authorization (with_file_id (handle_delete_file e)) q) w.
Proof.
  intros Hd. unfold dispatch, dispatch_with, exec, find_route, callback_routes,
    is_file_type_data, is_delete_file_data.
  simpl. by rewrite Hd.
Qed.

Lemma dispatch_delete_admitted (e : env) (q : CallbackQuery) (i : Z)
  (w : world) :
  cq_data q = DeleteFileCallbackData i →
  authorized_in w (user_id (cq_from_user q)) = true →
  dispatch e (EvCallback q) w = (handle_delete_file e q i w).2.
Proof.
  intros Hd Hu. rewrite (dispatch_delete e q i w Hd). unfold exec.
  rewrite require_authorization_admits by exact Hu.
  unfold with_file_id. by rewrite Hd.
Qed.

(** X9. The answer "cannot delete another user's file" is never sent:
    the ownership test of [handle_delete_file] runs only after
    [delete_file_record] found nothing to delete or has deleted every row
    with that id, so the row it looks up is never there. *)
Theorem delete_never_denies (e : env) (q : CallbackQuery) (i : Z) (w : world) :
  cq_data q = DeleteFileCallbackData i →
  ∃ l, outbox (dispatch e (EvCallback q) w) = (outbox w ++ l)%list
       ∧ PERMISSION_DENIED ∉ l.
Proof.
  intros Hd.
  destruct (authorized_in w (user_id (cq_from_user q))) eqn:Hu.
  - rewrite (dispatch_delete_admitted e q i w Hd Hu).
    destruct (handle_delete_file_run e q i w) as (_ & _ & _ & l & Hl & Hp & _).
    by exists l.
  - rewrite (dispatch_delete e q i w Hd). unfold exec.
    rewrite require_authorization_refuses by exact Hu. simpl.
    eexists. split; [done|]. unfold unauthorized_notice, PERMISSION_DENIED.
    simpl. destruct (truthy_int _); simpl; not_listed.
Qed.

Lemma delete_never_denies_witness :
  let q := Sample.button Sample.bob (DeleteFileCallbackData 1) in
  f_user_id Sample.report ≠ user_id (cq_from_user q)
  ∧ ∃ l, outbox (dispatch Sample.calm (EvCallback q) Sample.start)
         = (outbox Sample.start ++ l)%list
         ∧ PERMISSION_DENIED ∉ l.
Proof.
  intros q. split; [done|].
  exact (delete_never_denies Sample.calm q 1 Sample.start eq_refl).
Defined.





(** ** The file ledger over a run *)

Lemma writes_ledger {A} (ps : list part) (m : M A) (e : env) (ev : event)
  (w : world) :
  writes_only ps m → Ledger ∉ ps → ledger_step e ev w (m w).2.
Proof. intros Hm Hl. destruct (Hm w Ledger Hl). by apply ledger_same. Qed.

Lemma document_upload_ledger (e : env) (m : Message) (w : world) :
  has_document m = true →
  ledger_step e (EvMessage m) w
    (exec (require_authorization (handle_document_upload e) m) w).
Proof.
  intros Hd.
  destruct (authorized_in w (uid_of m)) eqn:Hu.
  2:{ unfold exec. rewrite require_authorization_refuses by exact Hu.
      by apply ledger_same. }
  pose proof Hu as Hu'. apply authorized_in_row in Hu' as (r & Hrow & Hauth).
  unfold has_document in Hd. destruct (document m) as [doc|] eqn:Hdoc; [|done].
  destruct (allowed_extension (document_extension doc)) eqn:Hx.
  2:{ rewrite (document_rejected e m doc w r Hrow Hauth Hdoc Hx).
      by apply ledger_same. }
  destruct (env_mkdir_fails e) eqn:H1.
  { rewrite (document_not_saved e m doc w r Hrow Hauth Hdoc Hx (or_introl H1)).
    by apply ledger_same. }
  destruct (env_download_fails e) eqn:H2.
  { rewrite (document_not_saved e m doc w r Hrow Hauth Hdoc Hx (or_intror H2)).
    by apply ledger_same. }
  destruct (env_insert_fails e) eqn:H3.
  { rewrite (document_insert_raises e m doc w r); try done.
    by apply ledger_same. }
  rewrite (document_stored e m doc w r); try done.
  apply (ledger_insert _ _ _ _ m
           (new_row e w (uid_of m) (document_path (uid_of m) doc)
              (document_name doc) "document")); try done.
  simpl. apply elem_of_union_l. by apply elem_of_singleton.
Qed.

Lemma photo_upload_ledger (e : env) (m : Message) (w : world) :
  has_photo m = true →
  ledger_step e (EvMessage m) w
    (exec (require_authorization (handle_photo_upload e) m) w).
Proof.
  intros Hp.
  destruct (authorized_in w (uid_of m)) eqn:Hu.
  2:{ unfold exec. rewrite require_authorization_refuses by exact Hu.
      by apply ledger_same. }
  pose proof Hu as Hu'. apply authorized_in_row in Hu' as (r & Hrow & Hauth).
  destruct (has_photo_largest m Hp) as [p Hlast].
  destruct (env_mkdir_fails e) eqn:H1.
  { rewrite (photo_not_saved e m p w r Hrow Hauth Hlast (or_introl H1)).
    by apply ledger_same. }
  destruct (env_download_fails e) eqn:H2.
  { rewrite (photo_not_saved e m p w r Hrow Hauth Hlast (or_intror H2)).
    by apply ledger_same. }
  destruct (env_insert_fails e) eqn:H3.
  { rewrite (photo_insert_raises e m p w r); try done. by apply ledger_same. }
  rewrite (photo_stored e m p w r); try done.
  apply (ledger_insert _ _ _ _ m
           (new_row e w (uid_of m) (upload_path (uid_of m) (photo_name e p))
              (photo_name e p) "photo")); try done.
  simpl. apply elem_of_union_l. by apply elem_of_singleton.
Qed.

Lemma dispatch_ledger_step (e : env) (ev : event) (w : world) :
  ledger_step e ev w (dispatch e ev w).
Proof.
  destruct ev as [m|q]; unfold dispatch, dispatch_with, exec.
  - destruct (find_route (message_routes e) m (current_state m w))
      as [r|] eqn:Hfind; [|by apply ledger_same].
    apply find_route_elem in Hfind as [Hr Hf].
    destruct (writes_message_route e r m Hr) as (ps & Hps & Hw).
    unfold message_routes in Hr.
    repeat (apply elem_of_cons in Hr as [->|Hr]); [..|by apply elem_of_nil in Hr];
      simpl in Hf; vm_compute in Hps; injection Hps as <-;
      try (apply (writes_ledger _ _ _ _ _ Hw); not_listed).
    + apply andb_true_iff in Hf as [_ Hd]. by apply document_upload_ledger.
    + apply andb_true_iff in Hf as [_ Hp]. by apply photo_upload_ledger.
  - destruct (find_route (callback_routes e) q (current_state q w))
      as [r|] eqn:Hfind; [|by apply ledger_same].
    apply find_route_elem in Hfind as [Hr Hf].
    destruct (writes_callback_route e r q Hr) as (ps & Hps & Hw).
    unfold callback_routes in Hr.
    repeat (apply elem_of_cons in Hr as [->|Hr]); [..|by apply elem_of_nil in Hr];
      simpl in Hf; vm_compute in Hps; injection Hps as <-;
      try (apply (writes_ledger _ _ _ _ _ Hw); not_listed).
    unfold is_delete_file_data in Hf.
    destruct (cq_data q) as [|i|] eqn:Hd; try done.
    unfold registered. simpl.
    destruct (authorized_in w (user_id (cq_from_user q))) eqn:Hu.
    + rewrite require_authorization_admits by exact Hu.
      unfold with_file_id. rewrite Hd.
      destruct (handle_delete_file_run e q i w) as (Hs & Hseq & _).
      by apply (ledger_delete _ _ _ _ q i).
    + rewrite require_authorization_refuses by exact Hu. by apply ledger_same.
Qed.

Lemma ledger_step_fresh (e : env) (ev : event) (w w' : world) :
  ledger_step e ev w w' → ids_fresh w → ids_fresh w'.
Proof.
  intros Hstep [Hle Hnd]. unfold ids_fresh.
  destruct Hstep as [Hs Hq|m row _ _ Hs Hq Hid _ _ _|q i _ _ _ Hs Hq];
    rewrite Hs, Hq.
  - done.
  - split.
    + apply Forall_app. split.
      * eapply Forall_impl; [exact Hle|]. simpl. intros r. lia.
      * apply Forall_singleton. lia.
    + rewrite fmap_app. apply NoDup_app. split; [done|]. split.
      * intros x Hx ->%list_elem_of_singleton.
        apply list_elem_of_fmap in Hx as (r & Hr & Hin).
        rewrite Forall_forall in Hle. specialize (Hle r Hin). lia.
      * apply NoDup_singleton.
  - split.
    + rewrite Forall_forall in *. intros r [_ Hin]%list_elem_of_filter.
      by apply Hle.
    + eapply sublist_NoDup; [exact Hnd|].
      apply fmap_sublist, sublist_filter.
Qed.

Lemma ledger_step_seq (e : env) (ev : event) (w w' : world) :
  ledger_step e ev w w' → storage_id_seq (db w) ≤ storage_id_seq (db w').
Proof. intros [_ ->|m row _ _ _ -> _ _ _ _|q i _ _ _ _ ->]; lia. Qed.

Lemma ledger_step_retired (e : env) (ev : event) (w w' : world) (i : Z) :
  ledger_step e ev w w' → retired w i → retired w' i.
Proof.
  intros Hstep [Hle Hout]. unfold retired.
  destruct Hstep as [Hs Hq|m row _ _ Hs Hq Hid _ _ _|q j _ _ _ Hs Hq];
    rewrite Hs, Hq.
  - done.
  - split; [lia|]. rewrite fmap_app. intros [Hin|Hin]%elem_of_app; [done|].
    apply list_elem_of_singleton in Hin. lia.
  - split; [done|].
    intros (r & -> & [_ Hin]%list_elem_of_filter)%list_elem_of_fmap.
    apply Hout. apply list_elem_of_fmap. by exists r.
Qed.

Lemma NoDup_fmap_inj_on (l : list file_row) (r1 r2 : file_row) :
  NoDup (f_id <$> l) → r1 ∈ l → r2 ∈ l → f_id r1 = f_id r2 → r1 = r2.
Proof.
  induction l as [|x l IH]; [by intros _ ?%elem_of_nil|].
  rewrite fmap_cons, NoDup_cons. intros [Hx Hnd].
  intros [->|H1]%elem_of_cons [->|H2]%elem_of_cons Heq; [done|..|by apply IH].
  - destruct Hx. rewrite Heq. apply list_elem_of_fmap. by exists r2.
  - destruct Hx. rewrite <- Heq. apply list_elem_of_fmap. by exists r1.
Qed.

(** X12. When ids are fresh (no row is above the sequence, no id occurs
    twice), they stay fresh over any run of events, whatever fails on the
    way; so an id names at most one row and the sequence never goes
    back. *)
Theorem file_ids_stay_fresh (evs : list (env * event)) (w : world) :
  ids_fresh w →
  ids_fresh (run evs w)
  ∧ storage_id_seq (db w) ≤ storage_id_seq (db (run evs w))
  ∧ ∀ r1 r2, r1 ∈ storage (db (run evs w)) → r2 ∈ storage (db (run evs w)) →
             f_id r1 = f_id r2 → r1 = r2.
Proof.
  intros Hw.
  assert (H : ids_fresh (run evs w)
              ∧ storage_id_seq (db w) ≤ storage_id_seq (db (run evs w))).
  { revert w Hw. induction evs as [|[e ev] evs IH]; intros w Hw; simpl; [done|].
    pose proof (dispatch_ledger_step e ev w) as Hstep.
    destruct (IH (dispatch e ev w) (ledger_step_fresh _ _ _ _ Hstep Hw))
      as [Hf Hle].
    split; [done|]. apply ledger_step_seq in Hstep. lia. }
  destruct H as [[Hle Hnd] Hseq]. split; [done|]. split; [done|].
  intros r1 r2. by apply NoDup_fmap_inj_on.
Qed.

Lemma sample_ids_fresh : ids_fresh Sample.start.
Proof.
  split.
  - apply Forall_singleton. simpl. lia.
  - simpl. apply NoDup_singleton.
Defined.

Lemma file_ids_stay_fresh_witness :
  let evs := [(Sample.calm, EvCallback
                 (Sample.button Sample.bob (DeleteFileCallbackData 1)))] in
  ids_fresh (run evs Sample.start)
  ∧ storage_id_seq (db (run evs Sample.start)) = 1.
Proof.
  intros evs.
  destruct (file_ids_stay_fresh evs Sample.start sample_ids_fresh)
    as (Hf & _ & _).
  split; [exact Hf|by vm_compute].
Defined.

(** X13. An id that the sequence has passed and that no row holds (a
    deleted file's id, for one) is never given to a row again. *)
Theorem deleted_ids_are_not_reused (evs : list (env * event)) (w : world)
  (i : Z) :
  retired w i → retired (run evs w) i.
Proof.
  revert w. induction evs as [|[e ev] evs IH]; intros w Hw; simpl; [done|].
  apply IH. eapply ledger_step_retired; [apply dispatch_ledger_step|done].
Qed.

Lemma deleted_ids_are_not_reused_witness :
  let q := Sample.button Sample.alice (DeleteFileCallbackData 1) in
  let w := dispatch Sample.calm (EvCallback q) Sample.start in
  let upload :=
    [(Sample.calm, EvMessage (Sample.text_message Sample.alice "Обробити файл"));
     (Sample.calm, EvCallback (Sample.button Sample.alice
                                 (FileTypeCallbackData "photo")));
     (Sample.calm, EvMessage (Sample.photo_message Sample.alice))] in
  retired (run upload w) 1 ∧ f_id <$> storage (db (run upload w)) = [2].
Proof.
  intros q w upload. split; [|by vm_compute].
  apply (deleted_ids_are_not_reused upload w 1).
  assert (Hs : storage (db w) = []) by (by vm_compute).
  unfold retired. rewrite Hs. split; [by vm_compute|apply not_elem_of_nil].
Defined.
(** ** Whose files an event can touch *)

Lemma omap_join_lookup (d d' : database) (uid : Z) (l : list file_row) :
  users d' !! uid = users d !! uid →
  omap (join_owner d' uid) l = omap (join_owner d uid) l.
Proof.
  intros Hu. induction l as [|s l IH]; [done|]. csimpl.
  rewrite IH. unfold join_owner. case_bool_decide as Hs; [|done].
  by rewrite Hs, Hu.
Qed.

Lemma credentials_step_others (e : env) (m : Message) (w w' : world) (u : Z) :
  credentials_step e (EvMessage m) w w' → u ≠ uid_of m →
  users (db w') !! u = users (db w) !! u.
Proof.
  intros Hstep Hne.
  destruct Hstep as [Hc|m' [= <-] _ Hc|m' c k r kr [= <-] _ _ _ _ _ _ _ Hc
                     |m' [= <-] _ Hc];
    unfold credentials in Hc; injection Hc as -> _.
  - done.
  - by rewrite lookup_insert_ne.
  - by rewrite lookup_alter_ne.
  - by rewrite lookup_alter_ne.
Qed.

(** X14. No message changes what another user's file list shows: the
    listing of every user but the sender is the same before and after,
    whatever the message is and whatever fails while it is handled. (A
    delete button is a callback, and is not bound by this.) *)
Theorem message_keeps_other_listings (e : env) (m : Message) (w : world)
  (u : Z) :
  u ≠ uid_of m →
  listing (dispatch e (EvMessage m) w) u = listing w u.
Proof.
  intros Hne. unfold listing. f_equal.
  pose proof (credentials_step_others e m w _ u
                (dispatch_credentials_step e (EvMessage m) w) Hne) as Hu.
  rewrite (omap_join_lookup (db w) _ u _ Hu).
  destruct (dispatch_ledger_step e (EvMessage m) w)
    as [-> _|m' row [= <-] _ -> _ _ Hown _ _|q i [=] _ _ _ _]; [done|].
  rewrite omap_app. simpl. unfold join_owner at 2.
  rewrite bool_decide_eq_false_2 by congruence. by rewrite app_nil_r.
Qed.

Lemma message_keeps_other_listings_witness :
  let m := Sample.photo_message Sample.bob in
  let w := Sample.in_session 200 awaiting_photo in
  length (storage (db (dispatch Sample.calm (EvMessage m) w))) = 2%nat
  ∧ listing (dispatch Sample.calm (EvMessage m) w) 100
    = [{| fl_file := Sample.report; fl_username := Some "alice" |}].
Proof.
  intros m w. split; [by vm_compute|].
  rewrite (message_keeps_other_listings Sample.calm m w 100); by vm_compute.
Defined.


(** ** A sender without a row *)

Lemma log_unknown (e : env) (u : Z) (d : string) (w : world) :
  users (db w) !! u = None → log_user_action e (Some u) d w = (Ok (), w).
Proof.
  intros Hrow. unfold log_user_action, insert_log. unfold_monad.
  rewrite bool_decide_eq_false_2; [done|]. rewrite Hrow. by intros [? ?].
Qed.

Lemma message_route_unregistered (e : env) (r : route Message) (m : Message)
  (w : world) :
  users (db w) !! uid_of m = None →
  is_command "start" m = false →
  r ∈ message_routes e → r_name r ≠ "cancel_upload_command" →
  r_filter r m (current_state m w) = true →
  let w' := exec (registered r m) w in
  db w' = db w ∧ fsm w' = fsm w ∧ disk w' = disk w.
Proof.
  intros Hrow Hstart Hr Hname Hf.
  assert (Hu : authorized_in w (uid_of m) = false).
  { unfold authorized_in. by rewrite Hrow. }
  unfold message_routes in Hr.
  repeat (apply elem_of_cons in Hr as [->|Hr]); [..|by apply elem_of_nil in Hr];
    simpl in Hf, Hname; try congruence; unfold registered, exec; simpl;
    try (by rewrite require_authorization_refuses by exact Hu).
  - unfold with_command, cmd_auth. destruct (msg_command m) as [c|]; [|done].
    cbv zeta. unfold get_user, answer. unfold_monad. rewrite Hrow.
    by rewrite log_unknown.
  - unfold handle_auth_button. cbv zeta. unfold mbind, M_bind.
    rewrite log_unknown by done. unfold get_user, answer. unfold_monad.
    by rewrite Hrow.
Qed.

(** X16. A sender without a row in [users] can change nothing but by
    [/start]: whatever else they send, the database (the audit log
    included, whose rows for them are dropped), the sessions and the disk
    stay as they are. *)
Theorem unregistered_sender_changes_nothing (e : env) (ev : event)
  (w : world) :
  users (db w) !! user_id (sender ev) = None →
  (∀ m, ev = EvMessage m → is_command "start" m = false) →
  let w' := dispatch e ev w in
  db w' = db w ∧ fsm w' = fsm w ∧ disk w' = disk w.
Proof.
  intros Hrow Hstart. destruct ev as [m|q]; simpl in Hrow;
    unfold dispatch, dispatch_with, exec.
  - destruct (find_route (message_routes e) m (current_state m w))
      as [r|] eqn:Hfind; [|done].
    pose proof (find_route_not_cancel e m _ r Hfind) as Hname.
    apply find_route_elem in Hfind as [Hr Hf].
    by apply (message_route_unregistered e r m w Hrow (Hstart m eq_refl)).
  - assert (Hu : authorized_in w (user_id (event_user q)) = false).
    { unfold authorized_in. simpl. by rewrite Hrow. }
    destruct (find_route (callback_routes e) q (current_state q w))
      as [r|] eqn:Hfind; [|done].
    apply find_route_elem in Hfind as [Hr _].
    unfold callback_routes in Hr.
    repeat (apply elem_of_cons in Hr as [->|Hr]); [..|by apply elem_of_nil in Hr];
      unfold registered; simpl;
      by rewrite require_authorization_refuses by exact Hu.
Qed.

Lemma unregistered_sender_changes_nothing_witness :
  let m := command_message Sample.dave "auth" (Some "key123") in
  let w' := dispatch Sample.calm (EvMessage m) Sample.start in
  db w' = db Sample.start ∧ length (outbox w') = 1%nat.
Proof.
  intros m w'.
  destruct (unregistered_sender_changes_nothing Sample.calm (EvMessage m)
              Sample.start) as (Hdb & _).
  - done.
  - by intros ? [= <-].
  - split; [exact Hdb|by vm_compute].
Defined.
(** ** Menus, listings and the choice of a file type *)










(** Where the router sends a plain text. *)
Lemma route_of_text (e : env) (m : Message) (w : world) (t : string) :
  msg_command m = None → text m = Some t →
  t ∈ ["Авторизація"; "Розлогінитись"; "Обробити файл";
       "Список завантаженних файлів"] →
  route_of e (EvMessage m) w
  = Some (if String.eqb t "Авторизація" then ("handle_auth_button", false)
          else if String.eqb t "Розлогінитись" then ("handle_logout", true)
          else if String.eqb t "Обробити файл"
               then ("handle_process_file", true)
          else ("handle_list_files", true)).
Proof.
  intros Hc Ht Hin. unfold route_of, find_route, message_routes, is_command,
    text_is. simpl. rewrite Hc, Ht.
  repeat (apply elem_of_cons in Hin as [->|Hin]; [done|]).
  by apply elem_of_nil in Hin.
Qed.

(** X19. Every button the bot shows has a handler, in every session
    state. A press of a reply-keyboard button arrives as a plain text and
    is routed to the handler of that text, never to a wrong-input handler;
    the buttons of the authorized menu lead to decorated handlers and the
    button of the unauthorized menu to an undecorated one. The data of
    the file-type keyboard are the two types the choice handler knows, so
    the unknown-type branch is not reachable from the bot's own keyboard;
    a delete button leads to [handle_delete_file]. *)
Theorem every_button_has_a_handler (e : env) (k : keyboard) (w : world) :
  (∀ t m, t ∈ button_texts k → msg_command m = None → text m = Some t →
     ∃ name, route_of e (EvMessage m) w
             = Some (name, bool_decide (k = main_menu_authorized))
             ∧ name ∈ ["handle_auth_button"; "handle_logout";
                       "handle_process_file"; "handle_list_files"])
  ∧ (∀ d q, d ∈ button_data k → cq_data q = d →
       match d with
       | FileTypeCallbackData t =>
           is_Some (choice_state t)
           ∧ (state_of w (user_id (cq_from_user q)) = Some choosing_file_type →
              route_of e (EvCallback q) w
              = Some ("handle_file_type_choice", true))
       | DeleteFileCallbackData i =>
           k = create_delete_button i
           ∧ route_of e (EvCallback q) w = Some ("handle_delete_file", true)
       | OtherCallbackData => False
       end).
Proof.
  split.
  - intros t m Hin Hc Ht.
    destruct k; simpl in Hin;
      repeat (apply elem_of_cons in Hin as [->|Hin];
              [rewrite (route_of_text e m w _ Hc Ht) by (by repeat constructor);
               simpl; eexists; split; [reflexivity|by repeat constructor]|]);
      by apply elem_of_nil in Hin.
  - intros d q Hin Hd.
    destruct k; simpl in Hin;
      repeat (apply elem_of_cons in Hin as [->|Hin]; [|]);
      try (by apply elem_of_nil in Hin).
    + split; [by eexists|]. intros Hst.
      unfold route_of, find_route, callback_routes, is_file_type_data,
        current_state. unfold state_of in Hst. simpl. by rewrite Hd, Hst.
    + split; [by eexists|]. intros Hst.
      unfold route_of, find_route, callback_routes, is_file_type_data,
        current_state. unfold state_of in Hst. simpl. by rewrite Hd, Hst.
    + split; [done|].
      unfold route_of, find_route, callback_routes, is_file_type_data,
        is_delete_file_data. simpl. by rewrite Hd.
Qed.

Lemma every_button_has_a_handler_witness :
  let m := Sample.text_message Sample.carol "Авторизація" in
  ∃ name, route_of Sample.calm (EvMessage m)
            (Sample.in_session 300 awaiting_photo)
          = Some (name, false).
Proof.
  intros m.
  destruct (every_button_has_a_handler Sample.calm main_menu_unauthorized
              (Sample.in_session 300 awaiting_photo)) as [H _].
  destruct (H "Авторизація" m) as (name & Hroute & _);
    [by repeat constructor|done|done|].
  by exists name.
Defined.
(** ** Start-up: [create_tables] *)

Lemma create_tables_nonempty (e : env) (fault : option nat) (w : world) :
  auth_keys (db w) ≠ ∅ →
  create_tables e fault w
  = (if bool_decide (fault = Some 3%nat) then Raise PostgresError else Ok (),
     w).
Proof.
  intros Hne. unfold create_tables, transaction, get_db.
  unfold mbind, M_bind. cbv zeta.
  rewrite bool_decide_eq_false_2.
  - simpl. unfold rollback.
    by destruct (bool_decide (fault = Some 3%nat)); rewrite ?world_eta.
  - intros Hz. by apply map_size_empty_iff in Hz.
Qed.

Lemma create_tables_empty (e : env) (fault : option nat) (w : world) :
  auth_keys (db w) = ∅ →
  create_tables e fault w
  = if bool_decide (fault ∈ [Some 0; Some 1; Some 2; Some 3]%nat)
    then (Raise PostgresError, w)
    else (Ok (), {| db := with_auth_keys (λ _, seeded e) (db w);
                    fsm := fsm w; disk := disk w; outbox := outbox w |}).
Proof.
  intros Hk. unfold create_tables, transaction, get_db.
  unfold mbind at 1, M_bind at 1. cbv zeta.
  rewrite bool_decide_eq_true_2 by (by rewrite Hk).
  unfold seeded, test_keys, insert_key. simpl.
  destruct fault as [[|[|[|[|n]]]]|]; unfold_monad; simpl;
    repeat (first [rewrite lookup_insert_ne by done | rewrite Hk
                  | rewrite lookup_empty]; simpl);
    rewrite ?world_eta; try done;
    unfold with_auth_keys; simpl; by rewrite Hk.
Qed.

Lemma seeded_size (e : env) : size (seeded e) = 3%nat.
Proof.
  unfold seeded, test_keys. simpl.
  rewrite !map_size_insert_None; [by rewrite map_size_empty|..];
    by rewrite ?lookup_insert_ne, ?lookup_empty by done.
Qed.

Lemma seeded_unused (e : env) (k : string) (r : key_row) :
  seeded e !! k = Some r → k ∈ test_keys ∧ k_is_used r = false.
Proof.
  unfold seeded, test_keys. simpl. intros Hk.
  repeat (apply lookup_insert_Some in Hk as [[<- <-]|[_ Hk]];
          [split; [by repeat constructor|done]|]).
  by rewrite lookup_empty in Hk.
Qed.

(** X20. [create_tables] seeds the three test keys, unused, exactly when
    the key table is empty, and as one transaction: whichever insert or
    the commit fails, the table is left empty, never partly seeded. A
    table that holds any key is left as it is, so running it again after
    a restart changes nothing and never makes a used key usable again.
    Users, files and the audit log are not touched. *)
Theorem create_tables_seeds_once (e : env) (fault : option nat) (w : world) :
  let out := create_tables e fault w in
  (∀ k r, auth_keys (db w) !! k = Some r →
          out.2 = w ∧ auth_keys (db out.2) !! k = Some r)
  ∧ (auth_keys (db w) = ∅ →
     (out.1 = Raise PostgresError ∧ out.2 = w)
     ∨ (out.1 = Ok ()
        ∧ db out.2 = with_auth_keys (λ _, seeded e) (db w)
        ∧ size (auth_keys (db out.2)) = 3%nat
        ∧ (∀ k r, auth_keys (db out.2) !! k = Some r →
                  k ∈ test_keys ∧ k_is_used r = false)
        ∧ ∀ e' fault', (create_tables e' fault' out.2).2 = out.2))
  ∧ fsm out.2 = fsm w ∧ disk out.2 = disk w ∧ outbox out.2 = outbox w
  ∧ users (db out.2) = users (db w) ∧ storage (db out.2) = storage (db w)
  ∧ logs (db out.2) = logs (db w).
Proof.
  intros out. unfold out. clear out.
  destruct (decide (auth_keys (db w) = ∅)) as [Hk|Hk].
  - rewrite (create_tables_empty e fault w Hk).
    split; [intros k r Hr; by rewrite Hk, lookup_empty in Hr|].
    destruct (bool_decide (fault ∈ [Some 0; Some 1; Some 2; Some 3]%nat));
      simpl; (split; [|done]); intros _; [by left|right].
    split; [done|]. split; [done|]. split; [apply seeded_size|].
    split; [apply seeded_unused|].
    intros e' fault'. rewrite create_tables_nonempty; [done|]. simpl.
    intros Hz. pose proof (seeded_size e) as Hs. rewrite Hz in Hs.
    by rewrite map_size_empty in Hs.
  - rewrite (create_tables_nonempty e fault w Hk). simpl.
    split; [by intros k r Hr|]. split; [done|]. done.
Qed.

Lemma unused_keys_size (w : world) :
  (size (unused_keys w) ≤ size (auth_keys (db w)))%nat.
Proof.
  rewrite <- (size_dom (auth_keys (db w))). apply subseteq_size.
  intros k (r & Hr & _)%elem_of_unused_keys. apply elem_of_dom. by exists r.
Qed.

(** X21. A bot that starts on a database without keys and without
    authorized users never has more than three authorized users, however
    [create_tables] ends and whatever events follow. *)
Theorem seeded_bot_authorizes_at_most_three (e : env) (fault : option nat)
  (evs : list (env * event)) (w : world) :
  auth_keys (db w) = ∅ → authorized_users w = ∅ →
  (size (authorized_users (run evs (exec (create_tables e fault) w))) ≤ 3)%nat.
Proof.
  intros Hk Hu. set (w1 := exec (create_tables e fault) w).
  pose proof (run_supply evs w1) as Hrun.
  pose proof (unused_keys_size w1) as Hkeys.
  assert (Hauth : authorized_users w1 = authorized_users w).
  { unfold authorized_users, w1, exec.
    rewrite (create_tables_empty e fault w Hk).
    by destruct (bool_decide _). }
  assert (Hsize : (size (auth_keys (db w1)) ≤ 3)%nat).
  { unfold w1, exec. rewrite (create_tables_empty e fault w Hk).
    destruct (bool_decide _); simpl.
    - rewrite Hk, map_size_empty. lia.
    - by rewrite seeded_size. }
  rewrite Hauth, Hu, size_empty in Hrun. lia.
Qed.

Lemma seeded_bot_authorizes_at_most_three_witness :
  let w := {| db := {| users := ∅; auth_keys := ∅; storage := [];
                       storage_id_seq := 0; logs := [] |};
              fsm := ∅; disk := ∅; outbox := [] |} in
  let evs :=
    [(Sample.calm, EvMessage (command_message Sample.dave "start" None));
     (Sample.calm, EvMessage (command_message Sample.dave "auth"
                                (Some "auth777")))] in
  let w' := run evs (exec (create_tables Sample.calm None) w) in
  authorized_in w' 400 = true
  ∧ (size (authorized_users w') ≤ 3)%nat.
Proof.
  intros w evs w'. split; [by vm_compute|].
  apply (seeded_bot_authorizes_at_most_three Sample.calm None evs w); done.
Defined.
